(** * The procedural tuxedo cat: figure construction, poses and customization

    A shallow embedding of [cat-model.js] (class [CatModel]) and of the pose
    switch of the viewer ([updateAnimation] and the frame callback [animate]).

    JavaScript numbers are modelled as real numbers ([R]); integer segment
    counts as [nat]; colour values as [Z].  Objects that the program shares by
    reference (materials, geometries, scene objects) live in stores indexed by
    address, so that aliasing is visible in the model. *)

From Stdlib Require Import Reals Lra ZArith String.
From stdpp Require Import base option list.

Local Open Scope R_scope.

(** Addresses into the object stores. *)
Abbreviation ref := nat (only parsing).

(** ** The three.js object model the program is written against *)

Module THREE.

Module Vector3.
Record t := mk { x : R; y : R; z : R }.

Definition set (_ : t) (a b c : R) : t := mk a b c.
Definition with_y (b : R) (v : t) : t := mk (x v) b (z v).

Definition sub (a b : t) : t := mk (x a - x b) (y a - y b) (z a - z b).
Definition add (a b : t) : t := mk (x a + x b) (y a + y b) (z a + z b).
Definition multiply (a b : t) : t := mk (x a * x b) (y a * y b) (z a * z b).

Definition distanceToSquared (a b : t) : R :=
  let dx := x a - x b in
  let dy := y a - y b in
  let dz := z a - z b in
  dx * dx + dy * dy + dz * dz.
End Vector3.

Module Euler.
Record t := mk { x : R; y : R; z : R }.

Definition with_x (a : R) (e : t) : t := mk a (y e) (z e).
Definition with_y (b : R) (e : t) : t := mk (x e) b (z e).
Definition with_z (c : R) (e : t) : t := mk (x e) (y e) c.
End Euler.

Module Color.
(** The three 8-bit channels that [setHex] extracts from its argument. *)
Record t := mk { r : Z; g : Z; b : Z }.

Definition setHex (hex : Z) : t :=
  mk (Z.land (Z.shiftr hex 16) 255)
     (Z.land (Z.shiftr hex 8) 255)
     (Z.land hex 255).
End Color.

Inductive Wrapping := RepeatWrapping | ClampToEdgeWrapping | MirroredRepeatWrapping.

(** A canvas texture: the pixel content (random strokes) is left out. *)
Record CanvasTexture := {
  width : nat;
  height : nat;
  wrapS : Wrapping;
  wrapT : Wrapping;
  repeat_ : R * R
}.

Record MeshStandardMaterial := {
  color : Color.t;
  roughness : R;
  metalness : R;
  normalScale : R * R;
  emissive : Color.t;
  emissiveIntensity : R;
  normalMap : option CanvasTexture;
  wireframe : bool;
  version : nat
}.

Record LineBasicMaterial := {
  line_color : Color.t;
  opacity : R;
  transparent : bool
}.

Inductive Material :=
| Standard (m : MeshStandardMaterial)
| LineBasic (m : LineBasicMaterial).

Definition materialColor (m : Material) : Color.t :=
  match m with
  | Standard s => color s
  | LineBasic l => line_color l
  end.

(** The [wireframe] property; a line material has none. *)
Definition materialWireframe (m : Material) : option bool :=
  match m with
  | Standard s => Some (wireframe s)
  | LineBasic _ => None
  end.

(** [material.color.setHex(hex)] *)
Definition color_setHex (hex : Z) (m : Material) : Material :=
  match m with
  | Standard s =>
      Standard {| color := Color.setHex hex; roughness := roughness s;
                  metalness := metalness s; normalScale := normalScale s;
                  emissive := emissive s;
                  emissiveIntensity := emissiveIntensity s;
                  normalMap := normalMap s; wireframe := wireframe s;
                  version := version s |}
  | LineBasic l =>
      LineBasic {| line_color := Color.setHex hex; opacity := opacity l;
                   transparent := transparent l |}
  end.

(** [material.wireframe = enabled] *)
Definition set_wireframe (enabled : bool) (m : Material) : Material :=
  match m with
  | Standard s =>
      Standard {| color := color s; roughness := roughness s;
                  metalness := metalness s; normalScale := normalScale s;
                  emissive := emissive s;
                  emissiveIntensity := emissiveIntensity s;
                  normalMap := normalMap s; wireframe := enabled;
                  version := version s |}
  | LineBasic l => LineBasic l
  end.

(** [material.normalMap = tex; material.needsUpdate = true] *)
Definition set_normalMap (tex : CanvasTexture) (m : Material) : Material :=
  match m with
  | Standard s =>
      Standard {| color := color s; roughness := roughness s;
                  metalness := metalness s; normalScale := normalScale s;
                  emissive := emissive s;
                  emissiveIntensity := emissiveIntensity s;
                  normalMap := Some tex; wireframe := wireframe s;
                  version := S (version s) |}
  | LineBasic l => LineBasic l
  end.

(** *** Curves *)

Inductive CurveType := centripetal | chordal | catmullrom.

Record CatmullRomCurve3 := {
  points : list Vector3.t;
  curve_closed : bool;
  curveType : CurveType;
  tension : R
}.

(** [new THREE.CatmullRomCurve3(points)] with the constructor's defaults. *)
Definition new_CatmullRomCurve3 (pts : list Vector3.t) : CatmullRomCurve3 :=
  {| points := pts; curve_closed := false; curveType := centripetal;
     tension := 0.5 |}.

(** *** Geometries *)

Inductive Shape :=
| SphereGeometry (radius : R) (widthSegments heightSegments : nat)
                 (phiStart phiLength thetaStart thetaLength : R)
| ConeGeometry (radius height : R) (radialSegments : nat)
| TubeGeometry (path : CatmullRomCurve3) (tubularSegments : nat)
               (radius : R) (radialSegments : nat) (closed : bool)
| BufferGeometry (position : list R) (itemSize : nat).

(** A geometry is a shape and the scaling baked into its vertices by
    [geometry.scale(x, y, z)]. *)
Record Geometry := { shape : Shape; baked : Vector3.t }.

Definition new_Geometry (s : Shape) : Geometry :=
  {| shape := s; baked := Vector3.mk 1 1 1 |}.

Definition geometry_scale (a b c : R) (g : Geometry) : Geometry :=
  {| shape := shape g; baked := Vector3.multiply (baked g) (Vector3.mk a b c) |}.

(** The [closed] argument of a tube; [None] for the other shapes. *)
Definition tubeClosed (g : Geometry) : option bool :=
  match shape g with
  | TubeGeometry _ _ _ _ c => Some c
  | _ => None
  end.

Definition tubePath (g : Geometry) : option CatmullRomCurve3 :=
  match shape g with
  | TubeGeometry p _ _ _ _ => Some p
  | _ => None
  end.

Definition tubeRadius (g : Geometry) : option R :=
  match shape g with
  | TubeGeometry _ _ r _ _ => Some r
  | _ => None
  end.

(** *** Scene objects *)

Inductive ObjectKind := Mesh | LineSegments.

Record Object3D := {
  kind : ObjectKind;
  geometry : ref;
  material : ref;
  position : Vector3.t;
  rotation : Euler.t;
  scale : Vector3.t;
  castShadow : bool;
  receiveShadow : bool
}.

(** [new THREE.Mesh(geometry, material)]: identity transform, no shadows. *)
Definition new_Object3D (k : ObjectKind) (g m : ref) : Object3D :=
  {| kind := k; geometry := g; material := m;
     position := Vector3.mk 0 0 0;
     rotation := Euler.mk 0 0 0;
     scale := Vector3.mk 1 1 1;
     castShadow := false; receiveShadow := false |}.

Definition with_position (f : Vector3.t -> Vector3.t) (o : Object3D) : Object3D :=
  {| kind := kind o; geometry := geometry o; material := material o;
     position := f (position o); rotation := rotation o; scale := scale o;
     castShadow := castShadow o; receiveShadow := receiveShadow o |}.

Definition with_rotation (f : Euler.t -> Euler.t) (o : Object3D) : Object3D :=
  {| kind := kind o; geometry := geometry o; material := material o;
     position := position o; rotation := f (rotation o); scale := scale o;
     castShadow := castShadow o; receiveShadow := receiveShadow o |}.

Definition with_scale (f : Vector3.t -> Vector3.t) (o : Object3D) : Object3D :=
  {| kind := kind o; geometry := geometry o; material := material o;
     position := position o; rotation := rotation o; scale := f (scale o);
     castShadow := castShadow o; receiveShadow := receiveShadow o |}.

Definition with_castShadow (v : bool) (o : Object3D) : Object3D :=
  {| kind := kind o; geometry := geometry o; material := material o;
     position := position o; rotation := rotation o; scale := scale o;
     castShadow := v; receiveShadow := receiveShadow o |}.

Definition with_receiveShadow (v : bool) (o : Object3D) : Object3D :=
  {| kind := kind o; geometry := geometry o; material := material o;
     position := position o; rotation := rotation o; scale := scale o;
     castShadow := castShadow o; receiveShadow := v |}.

End THREE.

(** Decidable tests on real numbers, for the comparisons of the code. *)
#[global] Instance R_eq_dec : EqDecision R := Req_dec_T.
#[global] Instance Rlt_decision (a b : R) : Decision (a < b) := Rlt_dec a b.

(** ** Evaluation of a Catmull-Rom curve *)

(** Modelled from the spec: the curve class [THREE.CatmullRomCurve3] is library
    code that [createSplineTube] instantiates and that is not part of the
    sources; the spec describes it as a smooth interpolating curve through the
    control points, Catmull-Rom style, without user-supplied tangents.  The
    definitions below are the library's [getPoint]: a cubic per span between
    consecutive control points, with end points extrapolated on an open curve.
    [None] stands for the failure of reading a coordinate of a missing point. *)
Module Curve.
Import THREE.

Record CubicPoly := { c0 : R; c1 : R; c2 : R; c3 : R }.

Definition init (x0 x1 t0 t1 : R) : CubicPoly :=
  {| c0 := x0;
     c1 := t0;
     c2 := -3 * x0 + 3 * x1 - 2 * t0 - t1;
     c3 := 2 * x0 - 2 * x1 + t0 + t1 |}.

Definition initCatmullRom (x0 x1 x2 x3 tension : R) : CubicPoly :=
  init x1 x2 (tension * (x2 - x0)) (tension * (x3 - x1)).

Definition initNonuniformCatmullRom (x0 x1 x2 x3 dt0 dt1 dt2 : R) : CubicPoly :=
  let t1 := (x1 - x0) / dt0 - (x2 - x0) / (dt0 + dt1) + (x2 - x1) / dt1 in
  let t2 := (x2 - x1) / dt1 - (x3 - x1) / (dt1 + dt2) + (x3 - x2) / dt2 in
  init x1 x2 (t1 * dt1) (t2 * dt1).

Definition calc (p : CubicPoly) (t : R) : R :=
  let t2 := t * t in
  let t3 := t2 * t in
  c0 p + c1 p * t + c2 p * t2 + c3 p * t3.

(** [points[k]] for a numeric index [k]. *)
Definition at_index {A} (l : list A) (k : Z) : option A :=
  if (k <? 0)%Z then None else l !! Z.to_nat k.

(** [Math.pow(d, 0.25)] and [Math.pow(d, 0.5)] on a squared distance. *)
Definition distance_power (ty : CurveType) (d : R) : R :=
  match ty with
  | chordal => sqrt d
  | _ => sqrt (sqrt d)
  end.

(** The span a parameter value falls in, and the position within the span. *)
Definition locate (c : CatmullRomCurve3) (t : R) : Z * R :=
  let l := Z.of_nat (length (points c)) in
  let p := IZR (l - (if curve_closed c then 0 else 1)) * t in
  let intPoint := Zfloor p in
  let weight := p - IZR intPoint in
  if curve_closed c then
    ((intPoint +
      (if (0 <? intPoint)%Z then 0 else (Z.abs intPoint / l + 1) * l))%Z,
     weight)
  else if bool_decide (weight = 0) && (intPoint =? l - 1)%Z then
    ((l - 2)%Z, 1)
  else (intPoint, weight).

(** The four points that shape the span starting at index [intPoint]; on an
    open curve the point before the first and the point after the last are
    extrapolated.  Both extrapolations are written to one scratch vector, so
    when both ends are extrapolated the first point reads as the last. *)
Definition spanPoints (c : CatmullRomCurve3) (intPoint : Z)
    : option (Vector3.t * Vector3.t * Vector3.t * Vector3.t) :=
  let pts := points c in
  let l := Z.of_nat (length pts) in
  let inner0 := curve_closed c || (0 <? intPoint)%Z in
  let inner3 := curve_closed c || (intPoint + 2 <? l)%Z in
  p0 ← (if inner0
        then at_index pts (Z.rem (intPoint - 1) l)
        else a ← at_index pts 0; b ← at_index pts 1;
             Some (Vector3.add (Vector3.sub a b) a));
  p1 ← at_index pts (Z.rem intPoint l);
  p2 ← at_index pts (Z.rem (intPoint + 1) l);
  p3 ← (if inner3
        then at_index pts (Z.rem (intPoint + 2) l)
        else a ← at_index pts (l - 1); b ← at_index pts (l - 2);
             Some (Vector3.add (Vector3.sub a b) a));
  Some (if inner0 || inner3 then p0 else p3, p1, p2, p3).

(** The cubic of one coordinate of a span. *)
Definition spanPoly (c : CatmullRomCurve3) (p0 p1 p2 p3 : Vector3.t)
    : R → R → R → R → CubicPoly :=
  match curveType c with
  | catmullrom => λ x0 x1 x2 x3, initCatmullRom x0 x1 x2 x3 (tension c)
  | ty =>
      let dt0 := distance_power ty (Vector3.distanceToSquared p0 p1) in
      let dt1 := distance_power ty (Vector3.distanceToSquared p1 p2) in
      let dt2 := distance_power ty (Vector3.distanceToSquared p2 p3) in
      (* safety check for repeated points *)
      let dt1 := if decide (dt1 < 1e-4) then 1 else dt1 in
      let dt0 := if decide (dt0 < 1e-4) then dt1 else dt0 in
      let dt2 := if decide (dt2 < 1e-4) then dt1 else dt2 in
      λ x0 x1 x2 x3, initNonuniformCatmullRom x0 x1 x2 x3 dt0 dt1 dt2
  end.

Definition interpolate (c : CatmullRomCurve3)
    (ps : Vector3.t * Vector3.t * Vector3.t * Vector3.t) (weight : R) : Vector3.t :=
  let '(p0, p1, p2, p3) := ps in
  let poly := spanPoly c p0 p1 p2 p3 in
  Vector3.mk
    (calc (poly (Vector3.x p0) (Vector3.x p1) (Vector3.x p2) (Vector3.x p3)) weight)
    (calc (poly (Vector3.y p0) (Vector3.y p1) (Vector3.y p2) (Vector3.y p3)) weight)
    (calc (poly (Vector3.z p0) (Vector3.z p1) (Vector3.z p2) (Vector3.z p3)) weight).

Definition getPoint (c : CatmullRomCurve3) (t : R) : option Vector3.t :=
  let '(intPoint, weight) := locate c t in
  ps ← spanPoints c intPoint;
  Some (interpolate c ps weight).

End Curve.

(** ** State-passing for the methods of the program *)

Definition State (S A : Type) : Type := S → A * S.

#[global] Instance state_ret {S} : MRet (State S) := λ A (a : A) s, (a, s).
#[global] Instance state_bind {S} : MBind (State S) :=
  λ A B (f : A → State S B) (m : State S A) s, let '(a, s') := m s in f a s'.

(** The state a method call leaves behind. *)
Definition run {S} (m : State S unit) (s : S) : S := (m s).2.

(** [xs.forEach(f)] *)
Fixpoint forEach {S A} (xs : list A) (f : A → State S unit) : State S unit :=
  match xs with
  | [] => mret tt
  | a :: xs' => f a;; forEach xs' f
  end.

(** ** The class [CatModel] *)

Module CatModel.
Import THREE.

(** [this.materials]: one reference per role. *)
Record MaterialSet := {
  blackFurMaterial : ref;
  whiteFurMaterial : ref;
  eyeMaterial : ref;
  noseMaterial : ref;
  innerEarMaterial : ref;
  whiskerMaterial : ref
}.

(** The instance together with the objects it has allocated: [group] is the
    list of children of [this.group], in insertion order. *)
Record t := {
  geometries : list Geometry;
  materialStore : list Material;
  objects : list Object3D;
  group : list ref;
  materials : MaterialSet;
  body : option ref;
  head : option ref;
  tail : option ref
}.

Definition M := State t.

(** *** Allocation and field updates *)

Definition new_Material (m : Material) : State (list Material) ref :=
  λ store, (length store, store ++ [m]).

Definition with_geometries (f : list Geometry → list Geometry) (s : t) : t :=
  {| geometries := f (geometries s); materialStore := materialStore s;
     objects := objects s; group := group s; materials := materials s;
     body := body s; head := head s; tail := tail s |}.

Definition with_materialStore (f : list Material → list Material) (s : t) : t :=
  {| geometries := geometries s; materialStore := f (materialStore s);
     objects := objects s; group := group s; materials := materials s;
     body := body s; head := head s; tail := tail s |}.

Definition with_objects (f : list Object3D → list Object3D) (s : t) : t :=
  {| geometries := geometries s; materialStore := materialStore s;
     objects := f (objects s); group := group s; materials := materials s;
     body := body s; head := head s; tail := tail s |}.

Definition with_group (f : list ref → list ref) (s : t) : t :=
  {| geometries := geometries s; materialStore := materialStore s;
     objects := objects s; group := f (group s); materials := materials s;
     body := body s; head := head s; tail := tail s |}.

Definition new_geometry (sh : Shape) : M ref :=
  λ s, (length (geometries s), with_geometries (λ gs, gs ++ [new_Geometry sh]) s).

Definition new_material (m : Material) : M ref :=
  λ s, (length (materialStore s), with_materialStore (λ ms, ms ++ [m]) s).

Definition new_Mesh (g m : ref) : M ref :=
  λ s, (length (objects s), with_objects (λ os, os ++ [new_Object3D Mesh g m]) s).

Definition new_LineSegments (g m : ref) : M ref :=
  λ s, (length (objects s),
        with_objects (λ os, os ++ [new_Object3D LineSegments g m]) s).

(** [object.clone()]: a new object with the same geometry and material
    references and a copy of the transform and flags. *)
Definition clone (r : ref) : M ref :=
  λ s, match objects s !! r with
       | Some o => (length (objects s), with_objects (λ os, os ++ [o]) s)
       | None => (r, s)
       end.

Definition update (r : ref) (f : Object3D → Object3D) : M unit :=
  λ s, (tt, with_objects (alter f r) s).

Definition update_geometry (r : ref) (f : Geometry → Geometry) : M unit :=
  λ s, (tt, with_geometries (alter f r) s).

Definition update_material (r : ref) (f : Material → Material) : M unit :=
  λ s, (tt, with_materialStore (alter f r) s).

(** [this.group.add(object)] *)
Definition group_add (r : ref) : M unit :=
  λ s, (tt, with_group (λ g, g ++ [r]) s).

Definition this_materials : M MaterialSet := λ s, (materials s, s).
Definition this_body : M (option ref) := λ s, (body s, s).
Definition this_tail : M (option ref) := λ s, (tail s, s).

Definition set_this_body (r : ref) : M unit :=
  λ s, (tt, {| geometries := geometries s; materialStore := materialStore s;
               objects := objects s; group := group s; materials := materials s;
               body := Some r; head := head s; tail := tail s |}).

Definition set_this_head (r : ref) : M unit :=
  λ s, (tt, {| geometries := geometries s; materialStore := materialStore s;
               objects := objects s; group := group s; materials := materials s;
               body := body s; head := Some r; tail := tail s |}).

Definition set_this_tail (r : ref) : M unit :=
  λ s, (tt, {| geometries := geometries s; materialStore := materialStore s;
               objects := objects s; group := group s; materials := materials s;
               body := body s; head := head s; tail := Some r |}).

(** [if (x) { ... }] on a field that holds an object or is undefined. *)
Definition when_defined (x : option ref) (f : ref → M unit) : M unit :=
  match x with
  | Some r => f r
  | None => mret tt
  end.

(** Assignments to the transform and flags of an object. *)
Definition position_set (o : ref) (a b c : R) : M unit :=
  update o (with_position (λ v, Vector3.set v a b c)).
Definition position_y (o : ref) (b : R) : M unit :=
  update o (with_position (Vector3.with_y b)).
Definition scale_set (o : ref) (a b c : R) : M unit :=
  update o (with_scale (λ v, Vector3.set v a b c)).
Definition scale_y (o : ref) (b : R) : M unit :=
  update o (with_scale (Vector3.with_y b)).
Definition rotation_x (o : ref) (a : R) : M unit :=
  update o (with_rotation (Euler.with_x a)).
Definition rotation_y (o : ref) (b : R) : M unit :=
  update o (with_rotation (Euler.with_y b)).
Definition rotation_z (o : ref) (c : R) : M unit :=
  update o (with_rotation (Euler.with_z c)).
Definition set_castShadow (o : ref) (v : bool) : M unit :=
  update o (with_castShadow v).
Definition set_receiveShadow (o : ref) (v : bool) : M unit :=
  update o (with_receiveShadow v).

(** *** Materials *)

Definition createMaterials : State (list Material) MaterialSet :=
  (* Black Fur material (Velvet look) *)
  blackFurMaterial ← new_Material (Standard
    {| color := Color.setHex 0x1a1a1a; roughness := 0.6; metalness := 0.1;
       normalScale := (0.5, 0.5);
       emissive := Color.setHex 0x000000; emissiveIntensity := 1;
       normalMap := None; wireframe := false; version := 0 |});
  (* White Fur material (Chest, Paws, Muzzle) *)
  whiteFurMaterial ← new_Material (Standard
    {| color := Color.setHex 0xffffff; roughness := 0.6; metalness := 0.1;
       normalScale := (0.5, 0.5);
       emissive := Color.setHex 0x000000; emissiveIntensity := 1;
       normalMap := None; wireframe := false; version := 0 |});
  (* Eye material (Glowing Yellow/Gold) *)
  eyeMaterial ← new_Material (Standard
    {| color := Color.setHex 0xffd700; roughness := 0.2; metalness := 0.0;
       normalScale := (1, 1);
       emissive := Color.setHex 0xffaa00; emissiveIntensity := 0.2;
       normalMap := None; wireframe := false; version := 0 |});
  (* Nose material (Pink) *)
  noseMaterial ← new_Material (Standard
    {| color := Color.setHex 0xffb6c1; roughness := 0.4; metalness := 0.1;
       normalScale := (1, 1);
       emissive := Color.setHex 0x000000; emissiveIntensity := 1;
       normalMap := None; wireframe := false; version := 0 |});
  (* Inner ear material *)
  innerEarMaterial ← new_Material (Standard
    {| color := Color.setHex 0xffb6c1; roughness := 0.6; metalness := 0.0;
       normalScale := (1, 1);
       emissive := Color.setHex 0x000000; emissiveIntensity := 1;
       normalMap := None; wireframe := false; version := 0 |});
  (* Whiskers material *)
  whiskerMaterial ← new_Material (LineBasic
    {| line_color := Color.setHex 0xdddddd; opacity := 0.6;
       transparent := true |});
  mret {| blackFurMaterial := blackFurMaterial;
          whiteFurMaterial := whiteFurMaterial;
          eyeMaterial := eyeMaterial;
          noseMaterial := noseMaterial;
          innerEarMaterial := innerEarMaterial;
          whiskerMaterial := whiskerMaterial |}.

(** Creates a smooth tube geometry from a spline curve.  The two segment
    counts have defaults (16 and 64) when the caller leaves them out. *)
Definition createSplineTube (points : list Vector3.t) (radius : R)
    (radialSegments tubularSegments : option nat) : M ref :=
  let radialSegments := default 16%nat radialSegments in
  let tubularSegments := default 64%nat tubularSegments in
  let curve := new_CatmullRomCurve3 points in
  geometry ← new_geometry
    (TubeGeometry curve tubularSegments radius radialSegments false);
  mret geometry.

(** *** Body parts *)

Definition createBody : M unit :=
  mats ← this_materials;
  (* Main Body (Black) *)
  bodyGeometry ← new_geometry (SphereGeometry 0.55 32 32 0 (PI * 2) 0 PI);
  body ← new_Mesh bodyGeometry (blackFurMaterial mats);
  scale_set body 0.85 0.8 1.3;;
  position_set body 0 0.6 0.1;;
  set_castShadow body true;;
  set_receiveShadow body true;;
  group_add body;;
  set_this_body body;;
  (* White Chest Patch *)
  chestGeometry ← new_geometry
    (SphereGeometry 0.4 32 16 0 (PI * 2) 0 (PI * 0.5));
  chest ← new_Mesh chestGeometry (whiteFurMaterial mats);
  scale_set chest 0.7 0.8 0.5;;
  position_set chest 0 0.5 0.55;;
  rotation_x chest (- PI / 4);;
  set_castShadow chest true;;
  set_receiveShadow chest true;;
  group_add chest.

Definition createHead : M unit :=
  mats ← this_materials;
  (* Head (Black) *)
  headGeometry ← new_geometry (SphereGeometry 0.38 32 32 0 (PI * 2) 0 PI);
  head ← new_Mesh headGeometry (blackFurMaterial mats);
  scale_set head 1 0.9 0.9;;
  position_set head 0 0.95 1.2;;
  set_castShadow head true;;
  set_receiveShadow head true;;
  group_add head;;
  set_this_head head;;
  (* Muzzle/Snout (White) *)
  snoutGeometry ← new_geometry (SphereGeometry 0.16 24 24 0 (PI * 2) 0 PI);
  snout ← new_Mesh snoutGeometry (whiteFurMaterial mats);
  scale_set snout 1.1 0.8 1.0;;
  position_set snout 0 0.82 1.48;;
  set_castShadow snout true;;
  set_receiveShadow snout true;;
  group_add snout;;
  (* White blaze on forehead *)
  blazeGeometry ← new_geometry (ConeGeometry 0.08 0.3 16);
  blaze ← new_Mesh blazeGeometry (whiteFurMaterial mats);
  position_set blaze 0 1.1 1.45;;
  rotation_x blaze (-0.5);;
  scale_set blaze 1 1 0.5;;
  set_receiveShadow blaze true;;
  group_add blaze.

Definition createEars : M unit :=
  mats ← this_materials;
  (* Left ear (Black outer) *)
  leftEarGeometry ← new_geometry (ConeGeometry 0.12 0.3 16);
  leftEar ← new_Mesh leftEarGeometry (blackFurMaterial mats);
  position_set leftEar (-0.25) 1.25 1.15;;
  rotation_z leftEar (-0.4);;
  rotation_x leftEar 0.2;;
  set_castShadow leftEar true;;
  set_receiveShadow leftEar true;;
  group_add leftEar;;
  (* Inner ear detail (Pink) *)
  innerEarGeometry ← new_geometry (ConeGeometry 0.06 0.2 16);
  leftInnerEar ← new_Mesh innerEarGeometry (innerEarMaterial mats);
  position_set leftInnerEar (-0.25) 1.25 1.22;;
  rotation_z leftInnerEar (-0.4);;
  rotation_x leftInnerEar 0.2;;
  set_castShadow leftInnerEar true;;
  group_add leftInnerEar;;
  (* Right ear (mirror) *)
  rightEar ← clone leftEar;
  position_set rightEar 0.25 1.25 1.15;;
  rotation_z rightEar 0.4;;
  set_castShadow rightEar true;;
  set_receiveShadow rightEar true;;
  group_add rightEar;;
  rightInnerEar ← clone leftInnerEar;
  position_set rightInnerEar 0.25 1.25 1.22;;
  rotation_z rightInnerEar 0.4;;
  set_castShadow rightInnerEar true;;
  group_add rightInnerEar.

Definition createPaws : M unit :=
  mats ← this_materials;
  pawGeometry ← new_geometry (SphereGeometry 0.12 16 16 0 (PI * 2) 0 PI);
  update_geometry pawGeometry (geometry_scale 1 0.7 1.2);;
  let positions :=
    [ Vector3.mk (-0.35) 0.05 0.8;    (* Front left *)
      Vector3.mk 0.35 0.05 0.8;       (* Front right *)
      Vector3.mk (-0.4) 0.05 (-0.3);  (* Back left *)
      Vector3.mk 0.4 0.05 (-0.3) ]    (* Back right *) in
  forEach positions (λ pos,
    paw ← new_Mesh pawGeometry (whiteFurMaterial mats);
    position_set paw (Vector3.x pos) (Vector3.y pos) (Vector3.z pos);;
    set_castShadow paw true;;
    set_receiveShadow paw true;;
    group_add paw).

Definition legPointsFront : list Vector3.t :=
  [ Vector3.mk 0 0 0; Vector3.mk 0 (-0.25) 0.05; Vector3.mk 0 (-0.45) 0 ].

Definition legPointsBack : list Vector3.t :=
  [ Vector3.mk 0 0 0; Vector3.mk 0 (-0.2) (-0.1); Vector3.mk 0 (-0.4) 0 ].

Definition createLegs : M unit :=
  mats ← this_materials;
  (* Legs (Black tubes) *)
  legGeometryFront ← createSplineTube legPointsFront 0.09 (Some 12%nat) (Some 32%nat);
  (* Front Left *)
  frontLeftLeg ← new_Mesh legGeometryFront (blackFurMaterial mats);
  position_set frontLeftLeg (-0.35) 0.55 0.8;;
  set_castShadow frontLeftLeg true;;
  set_receiveShadow frontLeftLeg true;;
  group_add frontLeftLeg;;
  (* Front Right *)
  frontRightLeg ← clone frontLeftLeg;
  position_set frontRightLeg 0.35 0.55 0.8;;
  set_castShadow frontRightLeg true;;
  set_receiveShadow frontRightLeg true;;
  group_add frontRightLeg;;
  (* Back Legs (Slightly different shape for sitting) *)
  legGeometryBack ← createSplineTube legPointsBack 0.11 (Some 12%nat) (Some 32%nat);
  (* Back Left *)
  backLeftLeg ← new_Mesh legGeometryBack (blackFurMaterial mats);
  position_set backLeftLeg (-0.4) 0.45 (-0.4);;
  rotation_x backLeftLeg (-0.3);;
  set_castShadow backLeftLeg true;;
  set_receiveShadow backLeftLeg true;;
  group_add backLeftLeg;;
  (* Back Right *)
  backRightLeg ← clone backLeftLeg;
  position_set backRightLeg 0.4 0.45 (-0.4);;
  set_castShadow backRightLeg true;;
  set_receiveShadow backRightLeg true;;
  group_add backRightLeg;;
  (* Add Paws (White Socks) *)
  createPaws.

Definition tailPoints : list Vector3.t :=
  [ Vector3.mk 0 0.5 (-1.1); Vector3.mk 0 0.7 (-1.6);
    Vector3.mk 0.2 1.1 (-1.9); Vector3.mk 0.4 1.5 (-2.0) ].

Definition createTail : M unit :=
  mats ← this_materials;
  (* Fluffier Tail (Black) *)
  tailGeometry ← createSplineTube tailPoints 0.12 (Some 12%nat) (Some 64%nat);
  tail ← new_Mesh tailGeometry (blackFurMaterial mats);
  set_castShadow tail true;;
  set_receiveShadow tail true;;
  group_add tail;;
  set_this_tail tail;;
  (* White tip *)
  tipGeometry ← new_geometry (SphereGeometry 0.11 16 16 0 (PI * 2) 0 PI);
  tip ← new_Mesh tipGeometry (whiteFurMaterial mats);
  position_set tip 0.4 1.5 (-2.0);;
  set_castShadow tip true;;
  group_add tip.

Definition createEyes : M unit :=
  mats ← this_materials;
  (* Eyes (Yellow/Gold) *)
  eyeGeometry ← new_geometry (SphereGeometry 0.09 24 24 0 (PI * 2) 0 PI);
  leftEye ← new_Mesh eyeGeometry (eyeMaterial mats);
  position_set leftEye (-0.16) 0.95 1.48;;
  rotation_y leftEye 0.2;;
  set_castShadow leftEye true;;
  group_add leftEye;;
  (* Pupil (Large, cute) *)
  pupilGeometry ← new_geometry (SphereGeometry 0.05 16 16 0 (PI * 2) 0 PI);
  pupilMaterial ← new_material (Standard
    {| color := Color.setHex 0x000000; roughness := 0; metalness := 0;
       normalScale := (1, 1);
       emissive := Color.setHex 0x000000; emissiveIntensity := 1;
       normalMap := None; wireframe := false; version := 0 |});
  leftPupil ← new_Mesh pupilGeometry pupilMaterial;
  position_set leftPupil (-0.16) 0.95 1.56;;
  scale_set leftPupil 0.8 1.2 0.5;;
  group_add leftPupil;;
  (* Right eye *)
  rightEye ← clone leftEye;
  position_set rightEye 0.16 0.95 1.48;;
  rotation_y rightEye (-0.2);;
  set_castShadow rightEye true;;
  group_add rightEye;;
  rightPupil ← clone leftPupil;
  position_set rightPupil 0.16 0.95 1.56;;
  group_add rightPupil.

Definition createNose : M unit :=
  mats ← this_materials;
  noseGeometry ← new_geometry (SphereGeometry 0.04 16 16 0 (PI * 2) 0 PI);
  nose ← new_Mesh noseGeometry (noseMaterial mats);
  scale_set nose 1 0.8 0.5;;
  position_set nose 0 0.88 1.63;;
  set_castShadow nose true;;
  group_add nose.

(** The six coordinates pushed by one iteration of the left-side loop of
    [createWhiskers], and of the right-side loop. *)
Definition leftWhisker (whiskerCount : nat) (whiskerLength : R) (i : nat) : list R :=
  let yOffset := (INR i - INR whiskerCount / 2) * 0.02 in
  let angle := 0.2 + INR i * 0.1 in
  [ -0.1; 0.85 + yOffset; 1.55;
    -0.1 - cos angle * whiskerLength;
    0.85 + yOffset + sin angle * 0.1;
    1.55 + sin angle * 0.1 ].

Definition rightWhisker (whiskerCount : nat) (whiskerLength : R) (i : nat) : list R :=
  let yOffset := (INR i - INR whiskerCount / 2) * 0.02 in
  let angle := 0.2 + INR i * 0.1 in
  [ 0.1; 0.85 + yOffset; 1.55;
    0.1 + cos angle * whiskerLength;
    0.85 + yOffset + sin angle * 0.1;
    1.55 + sin angle * 0.1 ].

Definition createWhiskers : M unit :=
  mats ← this_materials;
  let whiskerCount := 6%nat in
  let whiskerLength := 0.35 in
  let positions :=
    flat_map (leftWhisker whiskerCount whiskerLength) (seq 0 whiskerCount)
    ++ flat_map (rightWhisker whiskerCount whiskerLength) (seq 0 whiskerCount) in
  geometry ← new_geometry (BufferGeometry positions 3);
  whiskers ← new_LineSegments geometry (whiskerMaterial mats);
  group_add whiskers.

(** The procedural normal map: a 512 x 512 canvas, tiled 4 x 4, assigned to
    both fur materials. *)
Definition addFurDetails : M unit :=
  mats ← this_materials;
  let normalMap :=
    {| width := 512; height := 512; wrapS := RepeatWrapping;
       wrapT := RepeatWrapping; repeat_ := (4, 4) |} in
  update_material (blackFurMaterial mats) (set_normalMap normalMap);;
  update_material (whiteFurMaterial mats) (set_normalMap normalMap).

Definition buildCat : M unit :=
  createBody;;
  createHead;;
  createEars;;
  createLegs;;
  createTail;;
  createEyes;;
  createNose;;
  createWhiskers;;
  addFurDetails.

(** The instance when [buildCat] starts: the materials exist, the group is
    empty. *)
Definition initial : t :=
  let '(mats, store) := createMaterials [] in
  {| geometries := []; materialStore := store; objects := []; group := [];
     materials := mats; body := None; head := None; tail := None |}.

(** [new CatModel()] *)
Definition constructor : t := run buildCat initial.

Definition getGroup (this : t) : list ref := group this.

(** *** Animation methods *)

Definition animateIdle (time : R) : M unit :=
  (* Subtle breathing animation *)
  let breathe := sin (time * 2) * 0.01 in
  body ← this_body;
  when_defined body (λ body, scale_y body (0.8 + breathe));;
  (* Tail sway *)
  tail ← this_tail;
  when_defined tail (λ tail,
    rotation_x tail (sin (time * 1.5) * 0.08);;
    rotation_y tail (cos (time * 1) * 0.05)).

Definition animateSit : M unit :=
  body ← this_body;
  when_defined body (λ body,
    position_y body 0.5;;
    rotation_x body 0.25).

Definition animateStand : M unit :=
  body ← this_body;
  when_defined body (λ body,
    position_y body 0.6;;
    rotation_x body 0).

(** Only the black fur is recoloured: the coat. *)
Definition setFurColor (color : Z) : M unit :=
  mats ← this_materials;
  update_material (blackFurMaterial mats) (color_setHex color).

Definition toggleWireframe (enabled : bool) : M unit :=
  mats ← this_materials;
  update_material (blackFurMaterial mats) (set_wireframe enabled);;
  update_material (whiteFurMaterial mats) (set_wireframe enabled).

End CatModel.

(** ** The viewer's pose switch *)

Module CatViewer.

(** The fields of the viewer that the pose logic reads and writes. *)
Record t := {
  currentAnimation : string;
  catModel : CatModel.t
}.

Definition with_catModel (f : CatModel.t → CatModel.t) (this : t) : t :=
  {| currentAnimation := currentAnimation this; catModel := f (catModel this) |}.

Definition updateAnimation (this : t) : t :=
  if String.eqb (currentAnimation this) "sit" then
    with_catModel (run CatModel.animateSit) this
  else if String.eqb (currentAnimation this) "stand" then
    with_catModel (run CatModel.animateStand) this
  else (* case 'idle': default: *)
    with_catModel (run CatModel.animateStand) this.

(** The [change] listener of the animation control. *)
Definition onAnimationChange (value : string) (this : t) : t :=
  updateAnimation {| currentAnimation := value; catModel := catModel this |}.

(** One frame of [animate] at clock value [time]: the cat is animated only
    in idle mode. *)
Definition animate (time : R) (this : t) : t :=
  if String.eqb (currentAnimation this) "idle" then
    with_catModel (run (CatModel.animateIdle time)) this
  else this.

End CatViewer.

(** ** Observations on a figure *)

Import THREE.

(** The vertical scale of the body, when [this.body] is a live object. *)
Definition bodyScaleY (s : CatModel.t) : option R :=
  b ← CatModel.body s; o ← CatModel.objects s !! b; Some (Vector3.y (scale o)).

(** The rotation of the tail. *)
Definition tailRotation (s : CatModel.t) : option Euler.t :=
  r ← CatModel.tail s; o ← CatModel.objects s !! r; Some (rotation o).

(** The colour a scene object is drawn with: the colour of its material. *)
Definition renderedColor (s : CatModel.t) (r : ref) : option Color.t :=
  o ← CatModel.objects s !! r;
  m ← CatModel.materialStore s !! material o;
  Some (materialColor m).

(** The wireframe flag of the material at an address. *)
Definition wireframeAt (s : CatModel.t) (m : ref) : option bool :=
  CatModel.materialStore s !! m ≫= materialWireframe.

(** The geometry object a builder call returns. *)
Definition built (m : CatModel.M ref) (s : CatModel.t) : option Geometry :=
  let '(g, s') := m s in CatModel.geometries s' !! g.

(** The six role references of a material set. *)
Definition roleRefs (mats : CatModel.MaterialSet) : list ref :=
  [ CatModel.blackFurMaterial mats; CatModel.whiteFurMaterial mats;
    CatModel.eyeMaterial mats; CatModel.noseMaterial mats;
    CatModel.innerEarMaterial mats; CatModel.whiskerMaterial mats ].

Definition isStandardAt (store : list Material) (r : ref) : bool :=
  match store !! r with
  | Some (Standard _) => true
  | _ => false
  end.

Definition definedParts (s : CatModel.t) : list ref :=
  option_list (CatModel.body s) ++ option_list (CatModel.head s)
  ++ option_list (CatModel.tail s).

(** Well-formed instances: the six roles are six different live materials,
    the fur roles are mesh materials, every object refers to a live material
    and a live geometry, and the children and the named parts are live,
    different objects. *)
Definition wellFormed (s : CatModel.t) : bool :=
  let store := CatModel.materialStore s in
  let mats := CatModel.materials s in
  bool_decide (NoDup (roleRefs mats))
  && forallb (λ r, r <? length store)%nat (roleRefs mats)
  && isStandardAt store (CatModel.blackFurMaterial mats)
  && isStandardAt store (CatModel.whiteFurMaterial mats)
  && forallb (λ o, (material o <? length store)%nat
                   && (geometry o <? length (CatModel.geometries s))%nat)
             (CatModel.objects s)
  && forallb (λ r, r <? length (CatModel.objects s))%nat
             (CatModel.group s ++ definedParts s)
  && bool_decide (NoDup (definedParts s)).

(** [b] is the bilateral twin of [a]: reflected in the plane [x = 0], with
    the same geometry and material references and the same scale. *)
Definition mirroredX (a b : Object3D) : Prop :=
  geometry b = geometry a
  ∧ material b = material a
  ∧ scale b = scale a
  ∧ Vector3.x (position b) = - Vector3.x (position a)
  ∧ Vector3.y (position b) = Vector3.y (position a)
  ∧ Vector3.z (position b) = Vector3.z (position a)
  ∧ Euler.x (rotation b) = Euler.x (rotation a)
  ∧ Euler.y (rotation b) = - Euler.y (rotation a)
  ∧ Euler.z (rotation b) = - Euler.z (rotation a).

(** The children of the group that [clone] produced, each with the child it
    was cloned from: ears, inner ears, front legs, back legs, eyes, pupils. *)
Definition twins : list (ref * ref) :=
  [ (5, 7); (6, 8); (9, 10); (11, 12); (19, 21); (20, 22) ]%nat.

(** The states a figure goes through: a new figure, and what the public
    methods make of it. *)
Inductive reachable : CatModel.t → Prop :=
| reach_new : reachable CatModel.constructor
| reach_animateIdle s time :
    reachable s → reachable (run (CatModel.animateIdle time) s)
| reach_animateSit s : reachable s → reachable (run CatModel.animateSit s)
| reach_animateStand s : reachable s → reachable (run CatModel.animateStand s)
| reach_setFurColor s color :
    reachable s → reachable (run (CatModel.setFurColor color) s)
| reach_toggleWireframe s enabled :
    reachable s → reachable (run (CatModel.toggleWireframe enabled) s).

(** An update that keeps the class of a material. *)
Definition keepsClass (f : Material → Material) : Prop :=
  ∀ m, match m, f m with
       | Standard _, Standard _ | LineBasic _, LineBasic _ => True
       | _, _ => False
       end.

(** *** Observations and states used beyond the poses *)

(** The vertical position and the pitch of the body: the two fields the
    one-shot poses write. *)
Definition bodyPose (s : CatModel.t) : option (R * R) :=
  b ← CatModel.body s; o ← CatModel.objects s !! b;
  Some (Vector3.y (position o), Euler.x (rotation o)).

(** What a scene object is made of and how it takes part in shadows: the
    fields no method writes after construction. *)
Definition wiring (o : Object3D) : ObjectKind * ref * ref * bool * bool :=
  (kind o, geometry o, material o, castShadow o, receiveShadow o).

(** The body of the figure with vertical scale [sy], vertical position [py]
    and pitch [rx], everything else as [createBody] leaves it. *)
Definition poseBody (sy py rx : R) : Object3D :=
  {| kind := Mesh; geometry := 0; material := 0;
     position := Vector3.mk 0 py 0.1;
     rotation := Euler.mk rx 0 0;
     scale := Vector3.mk 0.85 sy 1.3;
     castShadow := true; receiveShadow := true |}.

(** The tail of the figure with rotation [tx], [ty] about the first two axes,
    everything else as [createTail] leaves it. *)
Definition swayTail (tx ty : R) : Object3D :=
  {| kind := Mesh; geometry := 10; material := 0;
     position := Vector3.mk 0 0 0;
     rotation := Euler.mk tx ty 0;
     scale := Vector3.mk 1 1 1;
     castShadow := true; receiveShadow := true |}.

(** A fur material as [createMaterials] and [addFurDetails] leave it, with
    colour [c] and wireframe flag [w]. *)
Definition furMaterial (c : Color.t) (w : bool) : Material :=
  Standard
    {| color := c; roughness := 0.6; metalness := 0.1;
       normalScale := (0.5, 0.5);
       emissive := Color.setHex 0x000000; emissiveIntensity := 1;
       normalMap := Some {| width := 512; height := 512;
                            wrapS := RepeatWrapping; wrapT := RepeatWrapping;
                            repeat_ := (4, 4) |};
       wireframe := w; version := 1 |}.

(** A colour whose three channels are bytes. *)
Definition byteColor (c : Color.t) : Prop :=
  (0 <= Color.r c <= 255 ∧ 0 <= Color.g c <= 255 ∧ 0 <= Color.b c <= 255)%Z.

(** *** The viewer as a state machine *)

(** The viewer once its constructor has run: idle mode, a new figure. *)
Definition viewerStart : CatViewer.t :=
  {| CatViewer.currentAnimation := "idle";
     CatViewer.catModel := CatModel.constructor |}.

(** The [change] listener of the wireframe control. *)
Definition onWireframeChange (checked : bool) (this : CatViewer.t) : CatViewer.t :=
  CatViewer.with_catModel (run (CatModel.toggleWireframe checked)) this.

(** The [input] listener of the fur colour control, from the number that was
    read from the control's value on: it is passed to [setFurColor]. *)
Definition onFurColorInput (hex : Z) (this : CatViewer.t) : CatViewer.t :=
  CatViewer.with_catModel (run (CatModel.setFurColor hex)) this.

(** The states of the viewer: the start, and what the listeners and the
    frames make of it. *)
Inductive viewerReachable : CatViewer.t → Prop :=
| vr_start : viewerReachable viewerStart
| vr_animation v value :
    viewerReachable v → viewerReachable (CatViewer.onAnimationChange value v)
| vr_frame v time :
    viewerReachable v → viewerReachable (CatViewer.animate time v)
| vr_wireframe v checked :
    viewerReachable v → viewerReachable (onWireframeChange checked v)
| vr_furColor v hex :
    viewerReachable v → viewerReachable (onFurColorInput hex v).

(** ** Proof automation *)

(** Two lists of objects agree when they agree at every address. *)
Ltac by_lookup :=
  apply list_eq; intros k;
  rewrite ?list_lookup_alter;
  repeat case_decide; subst;
  try match goal with |- context [?l !! ?i] => destruct (l !! i) as [[]|] end;
  try reflexivity; try congruence.

(** Evaluation that leaves the arithmetic of real numbers alone. *)
Ltac evaluate :=
  lazy -[Q2R PI Rplus Rmult Ropp Rinv Rdiv Rminus IZR INR sin cos sqrt].

(** ** The constructed figure *)

Section Figure.
Import CatModel.

Local Abbreviation obj := Build_Object3D (only parsing).

(** The scene objects of a new figure, by address; the children of the group
    are these objects in this order. *)
Lemma constructor_objects :
  objects constructor = [
    obj Mesh 0 0 (Vector3.mk 0 0.6 0.1) (Euler.mk 0 0 0) (Vector3.mk 0.85 0.8 1.3) true true;  (* 0: body *)
    obj Mesh 1 1 (Vector3.mk 0 0.5 0.55) (Euler.mk (- PI / 4) 0 0) (Vector3.mk 0.7 0.8 0.5) true true;  (* 1: chest *)
    obj Mesh 2 0 (Vector3.mk 0 0.95 1.2) (Euler.mk 0 0 0) (Vector3.mk 1 0.9 0.9) true true;  (* 2: head *)
    obj Mesh 3 1 (Vector3.mk 0 0.82 1.48) (Euler.mk 0 0 0) (Vector3.mk 1.1 0.8 1.0) true true;  (* 3: snout *)
    obj Mesh 4 1 (Vector3.mk 0 1.1 1.45) (Euler.mk (-0.5) 0 0) (Vector3.mk 1 1 0.5) false true;  (* 4: blaze *)
    obj Mesh 5 0 (Vector3.mk (-0.25) 1.25 1.15) (Euler.mk 0.2 0 (-0.4)) (Vector3.mk 1 1 1) true true;  (* 5: leftEar *)
    obj Mesh 6 4 (Vector3.mk (-0.25) 1.25 1.22) (Euler.mk 0.2 0 (-0.4)) (Vector3.mk 1 1 1) true false;  (* 6: leftInnerEar *)
    obj Mesh 5 0 (Vector3.mk 0.25 1.25 1.15) (Euler.mk 0.2 0 0.4) (Vector3.mk 1 1 1) true true;  (* 7: rightEar *)
    obj Mesh 6 4 (Vector3.mk 0.25 1.25 1.22) (Euler.mk 0.2 0 0.4) (Vector3.mk 1 1 1) true false;  (* 8: rightInnerEar *)
    obj Mesh 7 0 (Vector3.mk (-0.35) 0.55 0.8) (Euler.mk 0 0 0) (Vector3.mk 1 1 1) true true;  (* 9: frontLeftLeg *)
    obj Mesh 7 0 (Vector3.mk 0.35 0.55 0.8) (Euler.mk 0 0 0) (Vector3.mk 1 1 1) true true;  (* 10: frontRightLeg *)
    obj Mesh 8 0 (Vector3.mk (-0.4) 0.45 (-0.4)) (Euler.mk (-0.3) 0 0) (Vector3.mk 1 1 1) true true;  (* 11: backLeftLeg *)
    obj Mesh 8 0 (Vector3.mk 0.4 0.45 (-0.4)) (Euler.mk (-0.3) 0 0) (Vector3.mk 1 1 1) true true;  (* 12: backRightLeg *)
    obj Mesh 9 1 (Vector3.mk (-0.35) 0.05 0.8) (Euler.mk 0 0 0) (Vector3.mk 1 1 1) true true;  (* 13: paw *)
    obj Mesh 9 1 (Vector3.mk 0.35 0.05 0.8) (Euler.mk 0 0 0) (Vector3.mk 1 1 1) true true;  (* 14: paw *)
    obj Mesh 9 1 (Vector3.mk (-0.4) 0.05 (-0.3)) (Euler.mk 0 0 0) (Vector3.mk 1 1 1) true true;  (* 15: paw *)
    obj Mesh 9 1 (Vector3.mk 0.4 0.05 (-0.3)) (Euler.mk 0 0 0) (Vector3.mk 1 1 1) true true;  (* 16: paw *)
    obj Mesh 10 0 (Vector3.mk 0 0 0) (Euler.mk 0 0 0) (Vector3.mk 1 1 1) true true;  (* 17: tail *)
    obj Mesh 11 1 (Vector3.mk 0.4 1.5 (-2.0)) (Euler.mk 0 0 0) (Vector3.mk 1 1 1) true false;  (* 18: tip *)
    obj Mesh 12 2 (Vector3.mk (-0.16) 0.95 1.48) (Euler.mk 0 0.2 0) (Vector3.mk 1 1 1) true false;  (* 19: leftEye *)
    obj Mesh 13 6 (Vector3.mk (-0.16) 0.95 1.56) (Euler.mk 0 0 0) (Vector3.mk 0.8 1.2 0.5) false false;  (* 20: leftPupil *)
    obj Mesh 12 2 (Vector3.mk 0.16 0.95 1.48) (Euler.mk 0 (-0.2) 0) (Vector3.mk 1 1 1) true false;  (* 21: rightEye *)
    obj Mesh 13 6 (Vector3.mk 0.16 0.95 1.56) (Euler.mk 0 0 0) (Vector3.mk 0.8 1.2 0.5) false false;  (* 22: rightPupil *)
    obj Mesh 14 3 (Vector3.mk 0 0.88 1.63) (Euler.mk 0 0 0) (Vector3.mk 1 0.8 0.5) true false;  (* 23: nose *)
    obj LineSegments 15 5 (Vector3.mk 0 0 0) (Euler.mk 0 0 0) (Vector3.mk 1 1 1) false false   (* 24: whiskers *) ]%nat.
Proof. evaluate. reflexivity. Qed.

Lemma constructor_group : group constructor = seq 0 25.
Proof. evaluate. reflexivity. Qed.

Lemma constructor_materials :
  materials constructor =
  {| blackFurMaterial := 0; whiteFurMaterial := 1; eyeMaterial := 2;
     noseMaterial := 3; innerEarMaterial := 4; whiskerMaterial := 5 |}%nat.
Proof. evaluate. reflexivity. Qed.

(** The colours of the six roles and of the pupils, as 8-bit channels. *)
Lemma constructor_colors :
  (λ m, materialColor m) <$> materialStore constructor =
  [ Color.mk 26 26 26;      (* black fur, 0x1a1a1a *)
    Color.mk 255 255 255;   (* white fur *)
    Color.mk 255 215 0;     (* eye, 0xffd700 *)
    Color.mk 255 182 193;   (* nose, 0xffb6c1 *)
    Color.mk 255 182 193;   (* inner ear, 0xffb6c1 *)
    Color.mk 221 221 221;   (* whiskers, 0xdddddd *)
    Color.mk 0 0 0 ].       (* pupils *)
Proof. evaluate. reflexivity. Qed.

(** No material of a new figure is drawn as wireframe; the line material of
    the whiskers has no such flag. *)
Lemma constructor_wireframes :
  (λ m, materialWireframe m) <$> materialStore constructor =
  [ Some false; Some false; Some false; Some false; Some false; None; Some false ].
Proof. evaluate. reflexivity. Qed.

(** The three tubes of the figure (front legs, back legs, tail) are open. *)
Lemma constructor_tubes :
  omap tubeClosed (geometries constructor) = [false; false; false].
Proof. evaluate. reflexivity. Qed.

Lemma constructor_wellFormed : wellFormed constructor = true.
Proof. vm_compute. reflexivity. Qed.

End Figure.

(** ** Well-formed figures *)

Section Invariant.
Import CatModel.

Lemma forallb_alter {A} (P : A → bool) (f : A → A) (i : nat) (l : list A) :
  (∀ a, P (f a) = P a) → forallb P (alter f i l) = forallb P l.
Proof.
  intros Hf. revert i. induction l as [|a l IH]; intros [|i]; cbn; try reflexivity.
  - by rewrite Hf.
  - by rewrite IH.
Qed.

Lemma lookup_alter_preserved {A B} (g : A → B) (f : A → A) (i r : nat) (l : list A) :
  (∀ a, g (f a) = g a) → g <$> alter f i l !! r = g <$> l !! r.
Proof.
  intros Hf. rewrite list_lookup_alter. case_decide; [subst|done].
  destruct (l !! r); cbn; [f_equal; apply Hf|done].
Qed.

Lemma isStandardAt_alter (f : Material → Material) (i r : nat) (store : list Material) :
  keepsClass f → isStandardAt (alter f i store) r = isStandardAt store r.
Proof.
  intros Hf. unfold isStandardAt. rewrite list_lookup_alter.
  case_decide; [subst|reflexivity].
  destruct (store !! r) as [m|]; [|reflexivity]. cbn.
  specialize (Hf m). by destruct m; destruct (f _).
Qed.

Lemma wellFormed_alter_object (s : CatModel.t) (f : Object3D → Object3D) (b : ref) :
  (∀ o, material (f o) = material o ∧ geometry (f o) = geometry o) →
  wellFormed (with_objects (alter f b) s) = wellFormed s.
Proof.
  intros Hf. destruct s as [gs ms os g mats bd hd tl].
  unfold wellFormed, definedParts; cbn.
  rewrite length_alter, forallb_alter; [reflexivity|].
  intros o. by destruct (Hf o) as [-> ->].
Qed.

Lemma wellFormed_alter_material (s : CatModel.t) (f : Material → Material) (r : ref) :
  keepsClass f →
  wellFormed (with_materialStore (alter f r) s) = wellFormed s.
Proof.
  intros Hf. destruct s as [gs ms os g mats bd hd tl].
  unfold wellFormed, definedParts; cbn.
  by rewrite length_alter, !isStandardAt_alter.
Qed.

Lemma keepsClass_color_setHex (c : Z) : keepsClass (color_setHex c).
Proof. by intros []. Qed.

Lemma keepsClass_set_wireframe (b : bool) : keepsClass (set_wireframe b).
Proof. by intros []. Qed.

Lemma run_setFurColor_eq (s : CatModel.t) (c : Z) :
  run (setFurColor c) s =
  with_materialStore (alter (color_setHex c) (blackFurMaterial (materials s))) s.
Proof. by destruct s. Qed.

Lemma run_toggleWireframe_eq (s : CatModel.t) (enabled : bool) :
  run (toggleWireframe enabled) s =
  with_materialStore (alter (set_wireframe enabled) (whiteFurMaterial (materials s)))
    (with_materialStore (alter (set_wireframe enabled) (blackFurMaterial (materials s))) s).
Proof. by destruct s. Qed.

(** Every method of a figure keeps it well formed. *)
Lemma wellFormed_setFurColor (s : CatModel.t) (c : Z) :
  wellFormed (run (setFurColor c) s) = wellFormed s.
Proof.
  rewrite run_setFurColor_eq.
  apply wellFormed_alter_material, keepsClass_color_setHex.
Qed.

Lemma wellFormed_toggleWireframe (s : CatModel.t) (enabled : bool) :
  wellFormed (run (toggleWireframe enabled) s) = wellFormed s.
Proof.
  rewrite run_toggleWireframe_eq.
  rewrite !wellFormed_alter_material; auto using keepsClass_set_wireframe.
Qed.

Lemma wellFormed_animateSit (s : CatModel.t) :
  wellFormed (run animateSit s) = wellFormed s.
Proof.
  destruct s as [gs ms os g mats [b|] hd tl]; [|reflexivity].
  change (run animateSit _) with
    (with_objects (alter (with_rotation (Euler.with_x 0.25)) b)
       (with_objects (alter (with_position (Vector3.with_y 0.5)) b)
          (Build_t gs ms os g mats (Some b) hd tl))).
  by rewrite !wellFormed_alter_object.
Qed.

Lemma wellFormed_animateStand (s : CatModel.t) :
  wellFormed (run animateStand s) = wellFormed s.
Proof.
  destruct s as [gs ms os g mats [b|] hd tl]; [|reflexivity].
  change (run animateStand _) with
    (with_objects (alter (with_rotation (Euler.with_x 0)) b)
       (with_objects (alter (with_position (Vector3.with_y 0.6)) b)
          (Build_t gs ms os g mats (Some b) hd tl))).
  by rewrite !wellFormed_alter_object.
Qed.

Lemma wellFormed_animateIdle (s : CatModel.t) (time : R) :
  wellFormed (run (animateIdle time) s) = wellFormed s.
Proof.
  destruct s as [gs ms os g mats bd hd tl].
  set (s0 := Build_t gs ms os g mats bd hd tl).
  set (s1 := match bd with
             | Some b => with_objects
                 (alter (with_scale (Vector3.with_y (0.8 + sin (time * 2) * 0.01))) b) s0
             | None => s0
             end).
  assert (H1 : wellFormed s1 = wellFormed s0).
  { subst s1. destruct bd; [by rewrite wellFormed_alter_object|reflexivity]. }
  rewrite <- H1.
  destruct tl as [r|].
  - transitivity (wellFormed
      (with_objects (alter (with_rotation (Euler.with_y (cos (time * 1) * 0.05))) r)
         (with_objects (alter (with_rotation (Euler.with_x (sin (time * 1.5) * 0.08))) r) s1))).
    + subst s1 s0. by destruct bd.
    + by rewrite !wellFormed_alter_object.
  - subst s1 s0. by destruct bd.
Qed.

(** Every state a figure goes through is well formed. *)
Lemma reachable_wellFormed (s : CatModel.t) : reachable s → wellFormed s = true.
Proof.
  induction 1 as [|s time _ IH|s _ IH|s _ IH|s color _ IH|s enabled _ IH].
  - exact constructor_wellFormed.
  - by rewrite wellFormed_animateIdle.
  - by rewrite wellFormed_animateSit.
  - by rewrite wellFormed_animateStand.
  - by rewrite wellFormed_setFurColor.
  - by rewrite wellFormed_toggleWireframe.
Qed.

Lemma roles_distinct (mats : MaterialSet) (i j : nat) (a b : ref) :
  NoDup (roleRefs mats) →
  roleRefs mats !! i = Some a → roleRefs mats !! j = Some b → i ≠ j → a ≠ b.
Proof.
  intros Hnd Hi Hj Hij ->. eapply Hij, NoDup_lookup; eauto.
Qed.

Lemma wellFormed_unpack (s : CatModel.t) :
  wellFormed s = true →
  NoDup (roleRefs (materials s))
  ∧ (∃ m, materialStore s !! blackFurMaterial (materials s) = Some (Standard m))
  ∧ (∃ m, materialStore s !! whiteFurMaterial (materials s) = Some (Standard m))
  ∧ NoDup (definedParts s).
Proof.
  unfold wellFormed. rewrite !andb_true_iff, !bool_decide_eq_true.
  intros [[[[[[Hnd _] Hb] Hw] _] _] Hparts].
  repeat split; try assumption.
  - unfold isStandardAt in Hb.
    destruct (materialStore s !! _) as [[m|]|]; try discriminate. eauto.
  - unfold isStandardAt in Hw.
    destruct (materialStore s !! _) as [[m|]|]; try discriminate. eauto.
Qed.

End Invariant.

(** ** Materials: sharing and customization *)

Section Materials.
Import CatModel.

(** C2: construction leaves one live material per role, at six different
    addresses (the store holds a seventh material, the pupils' own, which has
    no role), and the children of the group hold these references: the nine
    black-fur segments all hold the one black-fur reference and the eight
    white-fur segments the one white-fur reference. *)
Theorem one_material_per_role :
  let s := constructor in
  let mats := materials s in
  let black := blackFurMaterial mats in
  let white := whiteFurMaterial mats in
  let eye := eyeMaterial mats in
  let pupil := 6%nat in
  NoDup (roleRefs mats)
  ∧ Forall (λ r, is_Some (materialStore s !! r)) (roleRefs mats)
  ∧ length (materialStore s) = 7%nat
  ∧ (λ r, material <$> objects s !! r) <$> group s =
    Some <$>
      [ black; white;                      (* body, chest *)
        black; white; white;               (* head, snout, blaze *)
        black; innerEarMaterial mats;      (* left ear, left inner ear *)
        black; innerEarMaterial mats;      (* right ear, right inner ear *)
        black; black; black; black;        (* legs *)
        white; white; white; white;        (* paws *)
        black; white;                      (* tail, tip *)
        eye; pupil; eye; pupil;            (* eyes and pupils *)
        noseMaterial mats;                 (* nose *)
        whiskerMaterial mats ].            (* whiskers *)
Proof.
  cbv zeta. rewrite constructor_materials, constructor_group, constructor_objects.
  split; [|split; [|split]].
  - apply (bool_decide_unpack _). reflexivity.
  - cbn [roleRefs blackFurMaterial whiteFurMaterial eyeMaterial noseMaterial
         innerEarMaterial whiskerMaterial].
    repeat (apply Forall_cons; split; [evaluate; eauto|]). by apply Forall_nil.
  - evaluate. reflexivity.
  - reflexivity.
Qed.

(** C3: on a well-formed figure, [setFurColor(c)] sets the colour of the
    shared black-fur material, leaves every other material of the store as it
    was (the white-fur, eye, nose, inner-ear and whisker materials among
    them), and leaves the objects alone: an object is drawn in the new colour
    if it holds the black-fur reference and in its old colour otherwise. *)
Theorem setFurColor_only_black_fur (s : CatModel.t) (c : Z) :
  wellFormed s = true →
  let mats := materials s in
  let s' := run (setFurColor c) s in
  materialColor <$> materialStore s' !! blackFurMaterial mats = Some (Color.setHex c)
  ∧ (∀ r, r ≠ blackFurMaterial mats → materialStore s' !! r = materialStore s !! r)
  ∧ Forall (λ r, materialStore s' !! r = materialStore s !! r)
      [ whiteFurMaterial mats; eyeMaterial mats; noseMaterial mats;
        innerEarMaterial mats; whiskerMaterial mats ]
  ∧ objects s' = objects s
  ∧ materials s' = materials s
  ∧ ∀ r o, objects s !! r = Some o →
      renderedColor s' r =
      if decide (material o = blackFurMaterial mats) then Some (Color.setHex c)
      else renderedColor s r.
Proof.
  intros Hwf. cbv zeta.
  destruct (wellFormed_unpack s Hwf) as (Hnd & [m Hb] & _ & _).
  rewrite run_setFurColor_eq.
  assert (Hother : ∀ r, r ≠ blackFurMaterial (materials s) →
    materialStore (with_materialStore
      (alter (color_setHex c) (blackFurMaterial (materials s))) s) !! r
    = materialStore s !! r).
  { intros r Hr. destruct s; cbn in *. by apply list_lookup_alter_ne. }
  assert (Hblack : materialColor <$>
    materialStore (with_materialStore
      (alter (color_setHex c) (blackFurMaterial (materials s))) s)
      !! blackFurMaterial (materials s) = Some (Color.setHex c)).
  { destruct s; cbn in *. by rewrite list_lookup_alter_eq, Hb. }
  split; [exact Hblack|]. split; [exact Hother|]. split; [|split; [|split]].
  - repeat (apply Forall_cons; split; [apply Hother|]); [..|by apply Forall_nil].
    + by apply (roles_distinct _ 1 0 _ _ Hnd).
    + by apply (roles_distinct _ 2 0 _ _ Hnd).
    + by apply (roles_distinct _ 3 0 _ _ Hnd).
    + by apply (roles_distinct _ 4 0 _ _ Hnd).
    + by apply (roles_distinct _ 5 0 _ _ Hnd).
  - by destruct s.
  - by destruct s.
  - intros r o Ho. unfold renderedColor.
    replace (objects (with_materialStore _ s)) with (objects s) by (by destruct s).
    rewrite Ho. cbn. case_decide as Hm.
    + rewrite Hm. clear -Hblack. cbn in *.
      destruct (alter _ _ _ !! _) as [m'|]; cbn in *; congruence.
    + by rewrite Hother.
Qed.

Lemma setFurColor_only_black_fur_witness :
  wellFormed constructor = true
  ∧ materialColor <$>
      materialStore (run (setFurColor 0xff8800) constructor)
        !! blackFurMaterial (materials constructor)
    = Some (Color.mk 255 136 0).
Proof.
  split; [exact constructor_wellFormed|].
  exact (proj1 (setFurColor_only_black_fur constructor 0xff8800 constructor_wellFormed)).
Defined.

(** C4: on a well-formed figure, [toggleWireframe(enabled)] makes the
    wireframe flag of the black-fur and of the white-fur material [enabled]
    (set by [true], cleared by [false]) and leaves every other material of
    the store as it was, the eye, nose, inner-ear and whisker materials among
    them; no colour changes. *)
Theorem toggleWireframe_only_fur (s : CatModel.t) (enabled : bool) :
  wellFormed s = true →
  let mats := materials s in
  let s' := run (toggleWireframe enabled) s in
  wireframeAt s' (blackFurMaterial mats) = Some enabled
  ∧ wireframeAt s' (whiteFurMaterial mats) = Some enabled
  ∧ (∀ r, r ≠ blackFurMaterial mats → r ≠ whiteFurMaterial mats →
       materialStore s' !! r = materialStore s !! r)
  ∧ Forall (λ r, materialStore s' !! r = materialStore s !! r
                 ∧ wireframeAt s' r = wireframeAt s r)
      [ eyeMaterial mats; noseMaterial mats; innerEarMaterial mats;
        whiskerMaterial mats ]
  ∧ (∀ r, materialColor <$> materialStore s' !! r
          = materialColor <$> materialStore s !! r)
  ∧ objects s' = objects s.
Proof.
  intros Hwf. cbv zeta.
  destruct (wellFormed_unpack s Hwf) as (Hnd & [mb Hb] & [mw Hw] & _).
  rewrite run_toggleWireframe_eq.
  destruct s as [gs ms os g mats bd hd tl]; cbn in *.
  assert (Hbw : blackFurMaterial mats ≠ whiteFurMaterial mats).
  { by apply (roles_distinct _ 0 1 _ _ Hnd). }
  assert (Hother : ∀ r, r ≠ blackFurMaterial mats → r ≠ whiteFurMaterial mats →
    alter (set_wireframe enabled) (whiteFurMaterial mats)
      (alter (set_wireframe enabled) (blackFurMaterial mats) ms) !! r = ms !! r).
  { intros r H1 H2. by rewrite !list_lookup_alter_ne. }
  split; [|split; [|split; [exact Hother|split; [|split]]]].
  - unfold wireframeAt; cbn.
    rewrite list_lookup_alter_ne, list_lookup_alter_eq, Hb by auto. reflexivity.
  - unfold wireframeAt; cbn.
    rewrite list_lookup_alter_eq, list_lookup_alter_ne, Hw by auto. reflexivity.
  - repeat (apply Forall_cons; split;
              [unfold wireframeAt; cbn; rewrite Hother; [done|..]|]);
      [..|by apply Forall_nil].
    + by apply (roles_distinct _ 2 0 _ _ Hnd).
    + by apply (roles_distinct _ 2 1 _ _ Hnd).
    + by apply (roles_distinct _ 3 0 _ _ Hnd).
    + by apply (roles_distinct _ 3 1 _ _ Hnd).
    + by apply (roles_distinct _ 4 0 _ _ Hnd).
    + by apply (roles_distinct _ 4 1 _ _ Hnd).
    + by apply (roles_distinct _ 5 0 _ _ Hnd).
    + by apply (roles_distinct _ 5 1 _ _ Hnd).
  - intros r. by rewrite !lookup_alter_preserved by (by intros []).
  - reflexivity.
Qed.

Lemma toggleWireframe_only_fur_witness :
  wellFormed constructor = true
  ∧ wireframeAt (run (toggleWireframe true) constructor)
      (blackFurMaterial (materials constructor)) = Some true
  ∧ wireframeAt (run (toggleWireframe false) constructor)
      (whiteFurMaterial (materials constructor)) = Some false.
Proof.
  split; [exact constructor_wellFormed|]. split.
  - exact (proj1 (toggleWireframe_only_fur constructor true constructor_wellFormed)).
  - exact (proj1 (proj2
      (toggleWireframe_only_fur constructor false constructor_wellFormed))).
Defined.

End Materials.

(** ** Properties of the animation methods *)

Section Animation.
Import CatModel.

Lemma run_animateIdle_eq (s : CatModel.t) (time : R) :
  run (animateIdle time) s =
  with_objects
    (λ os,
       let os1 := match body s with
                  | Some b => alter (with_scale (Vector3.with_y (0.8 + sin (time * 2) * 0.01))) b os
                  | None => os
                  end in
       match tail s with
       | Some r =>
           alter (with_rotation (Euler.with_y (cos (time * 1) * 0.05))) r
             (alter (with_rotation (Euler.with_x (sin (time * 1.5) * 0.08))) r os1)
       | None => os1
       end) s.
Proof.
  destruct s as [gs ms os g mats [b|] hd [r|]]; reflexivity.
Qed.

Lemma run_animateSit_eq (s : CatModel.t) :
  run animateSit s =
  with_objects
    (λ os, match body s with
           | Some b => alter (with_rotation (Euler.with_x 0.25))  b
                         (alter (with_position (Vector3.with_y 0.5)) b os)
           | None => os
           end) s.
Proof.
  destruct s as [gs ms os g mats [b|] hd tl]; reflexivity.
Qed.

Lemma run_animateStand_eq (s : CatModel.t) :
  run animateStand s =
  with_objects
    (λ os, match body s with
           | Some b => alter (with_rotation (Euler.with_x 0))  b
                         (alter (with_position (Vector3.with_y 0.6)) b os)
           | None => os
           end) s.
Proof.
  destruct s as [gs ms os g mats [b|] hd tl]; reflexivity.
Qed.

Lemma animateIdle_absorbs (s : CatModel.t) (t1 t2 : R) :
  run (animateIdle t2) (run (animateIdle t1) s) = run (animateIdle t2) s.
Proof.
  rewrite !run_animateIdle_eq.
  destruct s as [gs ms os g mats [b|] hd [r|]]; cbn; unfold with_objects; cbn;
    f_equal; by_lookup.
Qed.

Lemma animateSit_absorbs_stand (s : CatModel.t) :
  run animateSit (run animateStand s) = run animateSit s.
Proof.
  rewrite !run_animateSit_eq, run_animateStand_eq.
  destruct s as [gs ms os g mats [b|] hd tl]; cbn; unfold with_objects; cbn;
    f_equal; by_lookup.
Qed.

Lemma animateSit_idempotent (s : CatModel.t) :
  run animateSit (run animateSit s) = run animateSit s.
Proof.
  rewrite !run_animateSit_eq.
  destruct s as [gs ms os g mats [b|] hd tl]; cbn; unfold with_objects; cbn;
    f_equal; by_lookup.
Qed.

Lemma animateStand_idempotent (s : CatModel.t) :
  run animateStand (run animateStand s) = run animateStand s.
Proof.
  rewrite !run_animateStand_eq.
  destruct s as [gs ms os g mats [b|] hd tl]; cbn; unfold with_objects; cbn;
    f_equal; by_lookup.
Qed.

Lemma bodyScaleY_animateIdle (s : CatModel.t) (time : R) :
  is_Some (bodyScaleY s) →
  bodyScaleY (run (animateIdle time) s) = Some (0.8 + sin (time * 2) * 0.01).
Proof.
  intros [v Hv]. rewrite run_animateIdle_eq.
  destruct s as [gs ms os g mats [b|] hd tl]; [|discriminate].
  unfold bodyScaleY in *; cbn in *.
  destruct (os !! b) as [o|] eqn:Ho; [|discriminate].
  destruct tl as [r|]; rewrite ?list_lookup_alter;
    repeat case_decide; subst; try congruence; rewrite Ho; reflexivity.
Qed.

Lemma tailRotation_animateIdle (s : CatModel.t) (time : R) (e : Euler.t) :
  tailRotation s = Some e →
  tailRotation (run (animateIdle time) s) =
  Some (Euler.mk (sin (time * 1.5) * 0.08) (cos (time * 1) * 0.05) (Euler.z e)).
Proof.
  intros He. rewrite run_animateIdle_eq.
  destruct s as [gs ms os g mats bd hd [r|]]; [|discriminate].
  unfold tailRotation in *; cbn in *.
  destruct (os !! r) as [o|] eqn:Ho; [|discriminate].
  injection He as <-.
  rewrite !list_lookup_alter_eq.
  destruct bd as [b|]; rewrite ?list_lookup_alter;
    repeat case_decide; subst; try congruence; rewrite Ho; reflexivity.
Qed.

Lemma constructor_bodyScaleY : bodyScaleY constructor = Some 0.8.
Proof. vm_compute. reflexivity. Qed.

Lemma constructor_tailRotation : tailRotation constructor = Some (Euler.mk 0 0 0).
Proof. vm_compute. reflexivity. Qed.

(** C1: on a freshly constructed figure, [animateIdle(t1)] followed by
    [animateIdle(t2)] leaves the same state as [animateIdle(t2)] alone, and in
    it the body's vertical scale and the tail's rotation are the absolute
    values computed from [t2]; this holds for every pair of times, so in
    particular for [t1 < t2]. *)
Theorem animateIdle_no_drift (t1 t2 : R) :
  let twice := run (animateIdle t2) (run (animateIdle t1) constructor) in
  let once := run (animateIdle t2) constructor in
  twice = once
  ∧ bodyScaleY twice = bodyScaleY once
  ∧ tailRotation twice = tailRotation once
  ∧ bodyScaleY once = Some (0.8 + sin (t2 * 2) * 0.01)
  ∧ tailRotation once =
      Some (Euler.mk (sin (t2 * 1.5) * 0.08) (cos (t2 * 1) * 0.05) 0).
Proof.
  cbv zeta. rewrite animateIdle_absorbs.
  split; [reflexivity|]. split; [reflexivity|]. split; [reflexivity|].
  split.
  - apply bodyScaleY_animateIdle. rewrite constructor_bodyScaleY. eauto.
  - apply (tailRotation_animateIdle _ _ _ constructor_tailRotation).
Qed.

(** C5: from any state, [animateSit(); animateStand(); animateSit()] leaves
    the state of a single [animateSit()]; both one-shot poses are idempotent. *)
Theorem sit_stand_sit (s : CatModel.t) :
  run animateSit (run animateStand (run animateSit s)) = run animateSit s
  ∧ run animateSit (run animateSit s) = run animateSit s
  ∧ run animateStand (run animateStand s) = run animateStand s.
Proof.
  split; [|split].
  - rewrite animateSit_absorbs_stand. apply animateSit_idempotent.
  - apply animateSit_idempotent.
  - apply animateStand_idempotent.
Qed.



End Animation.

(** ** Mirrored twins *)

Section Twins.
Import CatModel.

Lemma update_other (s : CatModel.t) (a b : ref) (f : Object3D → Object3D) :
  a ≠ b → objects (run (update b f) s) !! a = objects s !! a.
Proof.
  intros Hab. destruct s; cbn. by apply list_lookup_alter_ne.
Qed.


End Twins.

(** ** The spline tube *)

Section SplineTube.
Import Curve.

Lemma calc_init_0 (x0 x1 t0 t1 : R) : calc (init x0 x1 t0 t1) 0 = x0.
Proof. unfold calc, init; cbn. ring. Qed.

Lemma calc_init_1 (x0 x1 t0 t1 : R) : calc (init x0 x1 t0 t1) 1 = x1.
Proof. unfold calc, init; cbn. ring. Qed.

(** A span starts at its second point and ends at its third, whatever the
    parameterization. *)
Lemma interpolate_0 (c : CatmullRomCurve3) (p0 p1 p2 p3 : Vector3.t) :
  interpolate c (p0, p1, p2, p3) 0 = p1.
Proof.
  unfold interpolate, spanPoly.
  destruct (curveType c); unfold initNonuniformCatmullRom, initCatmullRom;
    rewrite !calc_init_0; by destruct p1.
Qed.

Lemma interpolate_1 (c : CatmullRomCurve3) (p0 p1 p2 p3 : Vector3.t) :
  interpolate c (p0, p1, p2, p3) 1 = p2.
Proof.
  unfold interpolate, spanPoly.
  destruct (curveType c); unfold initNonuniformCatmullRom, initCatmullRom;
    rewrite !calc_init_1; by destruct p2.
Qed.

Lemma at_index_nat {A} (l : list A) (k : nat) : at_index l (Z.of_nat k) = l !! k.
Proof.
  unfold at_index. destruct (Z.ltb_spec (Z.of_nat k) 0); [lia|].
  by rewrite Nat2Z.id.
Qed.

Lemma at_index_is_Some {A} (l : list A) (k : Z) :
  (0 <= k < Z.of_nat (length l))%Z → is_Some (at_index l k).
Proof.
  intros Hk. rewrite <- (Z2Nat.id k) by lia. rewrite at_index_nat.
  apply lookup_lt_is_Some. lia.
Qed.

(** On an open curve the span at [k] runs from point [k] to point [k + 1]. *)
Lemma spanPoints_open (c : CatmullRomCurve3) (k : nat) (a b : Vector3.t) :
  curve_closed c = false →
  points c !! k = Some a → points c !! S k = Some b →
  ∃ p0 p3, spanPoints c (Z.of_nat k) = Some (p0, a, b, p3).
Proof.
  intros Hopen Ha Hb.
  assert (Hlen : (S k < length (points c))%nat) by (by eapply lookup_lt_Some).
  unfold spanPoints. rewrite Hopen. cbn [orb].
  set (l := Z.of_nat (length (points c))).
  assert (Hp0 : is_Some (
    if (0 <? Z.of_nat k)%Z then at_index (points c) (Z.rem (Z.of_nat k - 1) l)
    else a0 ← at_index (points c) 0; b0 ← at_index (points c) 1;
         Some (Vector3.add (Vector3.sub a0 b0) a0))).
  { destruct (Z.ltb_spec 0 (Z.of_nat k)).
    - rewrite Z.rem_small by lia. apply at_index_is_Some. lia.
    - destruct (at_index_is_Some (points c) 0) as [a0 ->]; [lia|].
      destruct (at_index_is_Some (points c) 1) as [b0 ->]; [lia|]. by eexists. }
  assert (Hp3 : is_Some (
    if (Z.of_nat k + 2 <? l)%Z then at_index (points c) (Z.rem (Z.of_nat k + 2) l)
    else a0 ← at_index (points c) (l - 1); b0 ← at_index (points c) (l - 2);
         Some (Vector3.add (Vector3.sub a0 b0) a0))).
  { destruct (Z.ltb_spec (Z.of_nat k + 2) l).
    - rewrite Z.rem_small by lia. apply at_index_is_Some. lia.
    - destruct (at_index_is_Some (points c) (l - 1)) as [a0 ->]; [lia|].
      destruct (at_index_is_Some (points c) (l - 2)) as [b0 ->]; [lia|]. by eexists. }
  destruct Hp0 as [p0 ->], Hp3 as [p3 ->].
  rewrite !Z.rem_small by lia.
  replace (Z.of_nat k + 1)%Z with (Z.of_nat (S k)) by lia.
  rewrite !at_index_nat, Ha, Hb. cbn [mbind option_bind]. by eexists _, _.
Qed.

(** The parameter value of the control point [i] lands on the span that
    starts there, or on the end of the last span. *)
Lemma locate_knot (c : CatmullRomCurve3) (i : nat) (t : R) :
  let n := length (points c) in
  curve_closed c = false → (2 ≤ n)%nat → (i < n)%nat →
  t = INR i / INR (n - 1) →
  locate c t = if decide (i = n - 1)%nat then (Z.of_nat (n - 2), 1)
               else (Z.of_nat i, 0).
Proof.
  intros n Hopen Hn Hi ->. unfold locate. rewrite Hopen. fold n.
  assert (Hl : IZR (Z.of_nat n - 1) = INR (n - 1)).
  { rewrite INR_IZR_INZ. f_equal. lia. }
  assert (Hnz : INR (n - 1) ≠ 0) by (apply not_0_INR; lia).
  assert (Hp : IZR (Z.of_nat n - 1) * (INR i / INR (n - 1)) = IZR (Z.of_nat i)).
  { rewrite Hl, <- INR_IZR_INZ. by field. }
  rewrite Hp, ZfloorZ, Rminus_diag.
  rewrite bool_decide_eq_true_2 by reflexivity. cbn [andb].
  case_decide as Hlast.
  - subst i. rewrite (proj2 (Z.eqb_eq _ _)) by lia. f_equal. lia.
  - by rewrite (proj2 (Z.eqb_neq _ _)) by lia.
Qed.

(** An open Catmull-Rom curve passes through each of its control points:
    point [i] of [n] at parameter [i / (n - 1)]. *)
Lemma getPoint_knot (c : CatmullRomCurve3) (i : nat) (t : R) :
  curve_closed c = false → (2 ≤ length (points c))%nat →
  (i < length (points c))%nat →
  t = INR i / INR (length (points c) - 1) →
  getPoint c t = points c !! i.
Proof.
  intros Hopen Hn Hi Ht. unfold getPoint.
  rewrite (locate_knot c i t Hopen Hn Hi Ht).
  destruct (lookup_lt_is_Some_2 (points c) i Hi) as [p Hp].
  case_decide as Hlast.
  - destruct (lookup_lt_is_Some_2 (points c) (length (points c) - 2)) as [q Hq];
      [lia|].
    destruct (spanPoints_open c (length (points c) - 2) q p Hopen Hq) as (p0 & p3 & ->).
    { rewrite <- Hp. f_equal. lia. }
    cbn [mbind option_bind]. by rewrite interpolate_1, Hp.
  - destruct (lookup_lt_is_Some_2 (points c) (S i)) as [q Hq]; [lia|].
    destruct (spanPoints_open c i p q Hopen Hp Hq) as (p0 & p3 & ->).
    cbn [mbind option_bind]. by rewrite interpolate_0, Hp.
Qed.

(** On an open curve with at least two control points, every parameter in
    [[0, 1]] falls on a span between two existing control points, so the
    evaluation never reads a missing point. *)
Lemma locate_range (c : CatmullRomCurve3) (t : R) :
  curve_closed c = false → (2 ≤ length (points c))%nat → 0 <= t <= 1 →
  ∃ (k : nat) (w : R), locate c t = (Z.of_nat k, w) ∧ (S k < length (points c))%nat.
Proof.
  intros Hopen Hn [Ht0 Ht1]. unfold locate. rewrite Hopen.
  set (n := length (points c)) in *.
  set (p := IZR (Z.of_nat n - 1) * t).
  assert (Hn1 : 1 <= IZR (Z.of_nat n - 1)) by (apply IZR_le; lia).
  assert (Hp : 0 <= p <= IZR (Z.of_nat n - 1)) by (unfold p; split; nra).
  pose proof (Zfloor_bound p) as [Hf1 Hf2].
  assert (Hf0 : (0 <= Zfloor p)%Z) by (apply Zfloor_lub; lra).
  assert (Hfn : (Zfloor p <= Z.of_nat n - 1)%Z) by (apply le_IZR; lra).
  destruct (bool_decide (p - IZR (Zfloor p) = 0) && (Zfloor p =? Z.of_nat n - 1)%Z)
    eqn:Hend.
  - exists (n - 2)%nat, 1. split; [f_equal; lia|lia].
  - exists (Z.to_nat (Zfloor p)), (p - IZR (Zfloor p)).
    rewrite Z2Nat.id by lia. split; [reflexivity|].
    apply andb_false_iff in Hend as [Hw|Hk].
    + apply bool_decide_eq_false in Hw.
      assert (Zfloor p ≠ Z.of_nat n - 1)%Z; [|lia].
      intros Heq. rewrite Heq in Hw, Hf1. apply Hw. lra.
    + apply Z.eqb_neq in Hk. lia.
Qed.

Lemma getPoint_defined (c : CatmullRomCurve3) (t : R) :
  curve_closed c = false → (2 ≤ length (points c))%nat → 0 <= t <= 1 →
  is_Some (getPoint c t).
Proof.
  intros Hopen Hn Ht. unfold getPoint.
  destruct (locate_range c t Hopen Hn Ht) as (k & w & -> & Hk).
  destruct (lookup_lt_is_Some_2 (points c) k) as [a Ha]; [lia|].
  destruct (lookup_lt_is_Some_2 (points c) (S k) Hk) as [b Hb].
  destruct (spanPoints_open c k a b Hopen Ha Hb) as (p0 & p3 & ->).
  by eexists.
Qed.

Lemma built_createSplineTube (s : CatModel.t) (pts : list Vector3.t) (radius : R)
    (radialSegments tubularSegments : option nat) :
  built (CatModel.createSplineTube pts radius radialSegments tubularSegments) s =
  Some (new_Geometry
          (TubeGeometry (new_CatmullRomCurve3 pts) (default 64%nat tubularSegments)
             radius (default 16%nat radialSegments) false)).
Proof.
  unfold built, CatModel.createSplineTube, CatModel.new_geometry.
  unfold mbind, state_bind, mret, state_ret.
  destruct s; cbn [CatModel.geometries CatModel.with_geometries].
  by apply list_lookup_middle.
Qed.



End SplineTube.

(** ** The pose switch *)

Section PoseSwitch.
Import CatModel CatViewer.

Lemma bodyScaleY_pose (s : CatModel.t) (py rx : R) (b : ref) :
  body s = Some b →
  bodyScaleY
    (with_objects (λ os, alter (with_rotation (Euler.with_x rx)) b
                           (alter (with_position (Vector3.with_y py)) b os)) s)
  = bodyScaleY s.
Proof.
  intros Hb. unfold bodyScaleY. destruct s; cbn in *. rewrite Hb. cbn.
  rewrite !list_lookup_alter_eq. by destruct (_ !! _).
Qed.

Lemma tailRotation_pose (s : CatModel.t) (py rx : R) (b : ref) :
  body s = Some b → NoDup (definedParts s) →
  tailRotation
    (with_objects (λ os, alter (with_rotation (Euler.with_x rx)) b
                           (alter (with_position (Vector3.with_y py)) b os)) s)
  = tailRotation s.
Proof.
  intros Hb Hnd. unfold tailRotation, definedParts in *.
  destruct s as [gs ms os g mats bd hd [r|]]; cbn in *; [|reflexivity].
  subst bd. cbn in Hnd.
  assert (b ≠ r).
  { intros ->. apply NoDup_cons in Hnd as [Hin _]. apply Hin.
    destruct hd; cbn; repeat constructor. }
  by rewrite !list_lookup_alter_ne.
Qed.

Lemma animateStand_keeps_idle_state (s : CatModel.t) :
  wellFormed s = true →
  bodyScaleY (run animateStand s) = bodyScaleY s
  ∧ tailRotation (run animateStand s) = tailRotation s.
Proof.
  intros Hwf. destruct (wellFormed_unpack s Hwf) as (_ & _ & _ & Hnd).
  rewrite run_animateStand_eq.
  destruct (body s) as [b|] eqn:Hb.
  - split; [by apply bodyScaleY_pose | by apply tailRotation_pose].
  - by destruct s.
Qed.



End PoseSwitch.

(** ** What every history of method calls keeps *)

Section Histories.
Import CatModel.

Lemma constructor_parts :
  body constructor = Some 0%nat ∧ head constructor = Some 2%nat
  ∧ tail constructor = Some 17%nat.
Proof. repeat split; evaluate; reflexivity. Qed.

Lemma constructor_body_object :
  objects constructor !! 0%nat = Some (poseBody 0.8 0.6 0).
Proof. rewrite constructor_objects. reflexivity. Qed.

Lemma constructor_tail_object :
  objects constructor !! 17%nat = Some (swayTail 0 0).
Proof. rewrite constructor_objects. reflexivity. Qed.

Lemma constructor_fur_materials :
  materialStore constructor !! 0%nat = Some (furMaterial (Color.mk 26 26 26) false)
  ∧ materialStore constructor !! 1%nat
    = Some (furMaterial (Color.mk 255 255 255) false)
  ∧ length (materialStore constructor) = 7%nat.
Proof. repeat split; evaluate; reflexivity. Qed.

Lemma byteColor_setHex (hex : Z) : byteColor (Color.setHex hex).
Proof.
  unfold byteColor, Color.setHex; cbn.
  change 255%Z with (Z.ones 8). rewrite !Z.land_ones by lia.
  pose proof (Z.mod_pos_bound (Z.shiftr hex 16) (2 ^ 8)).
  pose proof (Z.mod_pos_bound (Z.shiftr hex 8) (2 ^ 8)).
  pose proof (Z.mod_pos_bound hex (2 ^ 8)).
  change (Z.ones 8) with 255%Z. lia.
Qed.

Lemma objects_setFurColor (s : CatModel.t) (c : Z) :
  objects (run (setFurColor c) s) = objects s
  ∧ body (run (setFurColor c) s) = body s
  ∧ head (run (setFurColor c) s) = head s
  ∧ tail (run (setFurColor c) s) = tail s.
Proof. by destruct s. Qed.

Lemma objects_toggleWireframe (s : CatModel.t) (enabled : bool) :
  objects (run (toggleWireframe enabled) s) = objects s
  ∧ body (run (toggleWireframe enabled) s) = body s
  ∧ head (run (toggleWireframe enabled) s) = head s
  ∧ tail (run (toggleWireframe enabled) s) = tail s.
Proof. by destruct s. Qed.

(** The objects of a figure after any history: the named parts stay where
    construction put them, the body keeps everything but its breathing scale
    and its pose, the tail everything but its sway, and no other object
    changes. *)
Lemma reachable_objects (s : CatModel.t) :
  reachable s →
  body s = Some 0%nat ∧ head s = Some 2%nat ∧ tail s = Some 17%nat
  ∧ length (objects s) = 25%nat
  ∧ (∀ r, r ≠ 0%nat → r ≠ 17%nat → objects s !! r = objects constructor !! r)
  ∧ (∃ sy py rx,
       objects s !! 0%nat = Some (poseBody sy py rx)
       ∧ 0.79 <= sy <= 0.81
       ∧ ((py = 0.6 ∧ rx = 0) ∨ (py = 0.5 ∧ rx = 0.25)))
  ∧ (∃ tx ty,
       objects s !! 17%nat = Some (swayTail tx ty)
       ∧ -0.08 <= tx <= 0.08 ∧ -0.05 <= ty <= 0.05).
Proof.
  induction 1 as [|s time _ IH|s _ IH|s _ IH|s color _ IH|s enabled _ IH].
  - destruct constructor_parts as (Hb & Hh & Ht).
    split; [exact Hb|]. split; [exact Hh|]. split; [exact Ht|].
    split; [by rewrite constructor_objects|]. split; [done|]. split.
    + exists 0.8, 0.6, 0. split; [exact constructor_body_object|]. lra.
    + exists 0, 0. split; [exact constructor_tail_object|]. lra.
  - destruct IH as (Hb & Hh & Ht & Hlen & Hrest & (sy & py & rx & Hbody & _ & Hpose)
                    & (tx & ty & Htail & _)).
    rewrite run_animateIdle_eq.
    destruct s as [gs ms os g mats bd hd tl]; cbn in *; subst bd hd tl; cbn.
    repeat split; try reflexivity.
    + by rewrite !length_alter.
    + intros r H0 H17. rewrite !list_lookup_alter_ne by done. by apply Hrest.
    + exists (0.8 + sin (time * 2) * 0.01), py, rx.
      rewrite !list_lookup_alter_ne, list_lookup_alter_eq, Hbody by done.
      split; [reflexivity|]. pose proof (SIN_bound (time * 2)). split; [lra|done].
    + exists (sin (time * 1.5) * 0.08), (cos (time * 1) * 0.05).
      rewrite !list_lookup_alter_eq, list_lookup_alter_ne, Htail by done.
      split; [reflexivity|].
      pose proof (SIN_bound (time * 1.5)). pose proof (COS_bound (time * 1)). lra.
  - destruct IH as (Hb & Hh & Ht & Hlen & Hrest & (sy & py & rx & Hbody & Hsy & _)
                    & (tx & ty & Htail & Hsway)).
    rewrite run_animateSit_eq.
    destruct s as [gs ms os g mats bd hd tl]; cbn in *; subst bd hd tl; cbn.
    repeat split; try reflexivity.
    + by rewrite !length_alter.
    + intros r H0 H17. rewrite !list_lookup_alter_ne by done. by apply Hrest.
    + exists sy, 0.5, 0.25. rewrite !list_lookup_alter_eq, Hbody.
      split; [reflexivity|]. split; [done|]. by right.
    + exists tx, ty. rewrite !list_lookup_alter_ne, Htail by done. done.
  - destruct IH as (Hb & Hh & Ht & Hlen & Hrest & (sy & py & rx & Hbody & Hsy & _)
                    & (tx & ty & Htail & Hsway)).
    rewrite run_animateStand_eq.
    destruct s as [gs ms os g mats bd hd tl]; cbn in *; subst bd hd tl; cbn.
    repeat split; try reflexivity.
    + by rewrite !length_alter.
    + intros r H0 H17. rewrite !list_lookup_alter_ne by done. by apply Hrest.
    + exists sy, 0.6, 0. rewrite !list_lookup_alter_eq, Hbody.
      split; [reflexivity|]. split; [done|]. by left.
    + exists tx, ty. rewrite !list_lookup_alter_ne, Htail by done. done.
  - destruct (objects_setFurColor s color) as (-> & -> & -> & ->). exact IH.
  - destruct (objects_toggleWireframe s enabled) as (-> & -> & -> & ->). exact IH.
Qed.

(** The materials, geometries and children of a figure after any history:
    only the colour of the black fur and the wireframe flag of the two furs
    ever differ from what construction left, and the two flags agree. *)
Lemma reachable_materials (s : CatModel.t) :
  reachable s →
  materials s = materials constructor
  ∧ geometries s = geometries constructor
  ∧ group s = group constructor
  ∧ length (materialStore s) = 7%nat
  ∧ (∀ r, (2 ≤ r)%nat → materialStore s !! r = materialStore constructor !! r)
  ∧ ∃ c w,
      byteColor c
      ∧ materialStore s !! 0%nat = Some (furMaterial c w)
      ∧ materialStore s !! 1%nat = Some (furMaterial (Color.mk 255 255 255) w).
Proof.
  induction 1 as [|s time _ IH|s _ IH|s _ IH|s color _ IH|s enabled _ IH].
  - destruct constructor_fur_materials as (Hb & Hw & Hlen).
    do 3 (split; [reflexivity|]). split; [exact Hlen|].
    split; [intros; reflexivity|].
    exists (Color.mk 26 26 26), false.
    split; [unfold byteColor; cbn; lia|]. by split.
  - rewrite run_animateIdle_eq. by destruct s.
  - rewrite run_animateSit_eq. by destruct s.
  - rewrite run_animateStand_eq. by destruct s.
  - destruct IH as (Hm & Hg & Hgr & Hlen & Hrest & c & w & Hc & Hb & Hw).
    rewrite run_setFurColor_eq, Hm, constructor_materials.
    destruct s as [gs ms os g mats bd hd tl];
      cbn [materials geometries group materialStore with_materialStore
           blackFurMaterial] in *.
    split; [exact Hm|]. split; [exact Hg|]. split; [exact Hgr|].
    split; [by rewrite length_alter|]. split.
    + intros r Hr. rewrite list_lookup_alter_ne by lia. by apply Hrest.
    + exists (Color.setHex color), w. split; [apply byteColor_setHex|].
      rewrite list_lookup_alter_eq, list_lookup_alter_ne, Hb, Hw by lia.
      by split.
  - destruct IH as (Hm & Hg & Hgr & Hlen & Hrest & c & w & Hc & Hb & Hw).
    rewrite run_toggleWireframe_eq, Hm, constructor_materials.
    destruct s as [gs ms os g mats bd hd tl];
      cbn [materials geometries group materialStore with_materialStore
           blackFurMaterial whiteFurMaterial] in *.
    split; [exact Hm|]. split; [exact Hg|]. split; [exact Hgr|].
    split; [by rewrite !length_alter|]. split.
    + intros r Hr. rewrite !list_lookup_alter_ne by lia. by apply Hrest.
    + exists c, enabled. split; [exact Hc|].
      rewrite list_lookup_alter_ne, !list_lookup_alter_eq, list_lookup_alter_ne,
        Hb, Hw by lia.
      by split.
Qed.

Lemma reachable_example :
  reachable (run (toggleWireframe true)
               (run (setFurColor 0xff8800)
                  (run (animateIdle 1) (run animateSit constructor)))).
Proof.
  apply reach_toggleWireframe, reach_setFurColor, reach_animateIdle,
    reach_animateSit, reach_new.
Qed.

(** X1: after any history of method calls the figure is well formed and its
    structure is the constructed one: the same 25 children in the same order,
    every object with its kind, geometry, material and shadow flags, the same
    geometries, role references and named parts, and seven materials. *)
Theorem structure_is_frozen (s : CatModel.t) :
  reachable s →
  wellFormed s = true
  ∧ group s = seq 0 25
  ∧ wiring <$> objects s = wiring <$> objects constructor
  ∧ geometries s = geometries constructor
  ∧ materials s = materials constructor
  ∧ body s = Some 0%nat ∧ head s = Some 2%nat ∧ tail s = Some 17%nat
  ∧ length (materialStore s) = 7%nat.
Proof.
  intros Hs.
  destruct (reachable_objects s Hs) as
    (Hb & Hh & Ht & Hlen & Hrest & (sy & py & rx & Hbody & _) & (tx & ty & Htail & _)).
  destruct (reachable_materials s Hs) as (Hm & Hg & Hgr & Hml & _).
  split; [by apply reachable_wellFormed|].
  split; [by rewrite Hgr, constructor_group|].
  split; [|by repeat split].
  apply list_eq. intros k. rewrite !list_lookup_fmap.
  destruct (decide (k = 0%nat)) as [->|H0].
  - by rewrite Hbody, constructor_body_object.
  - destruct (decide (k = 17%nat)) as [->|H17].
    + by rewrite Htail, constructor_tail_object.
    + by rewrite Hrest.
Qed.

Lemma structure_is_frozen_witness :
  let s := run (toggleWireframe true)
             (run (setFurColor 0xff8800)
                (run (animateIdle 1) (run animateSit constructor))) in
  reachable s ∧ wellFormed s = true.
Proof.
  cbv zeta. split; [exact reachable_example|].
  exact (proj1 (structure_is_frozen _ reachable_example)).
Defined.





(** X4: after any history the black-fur material is the constructed one up
    to its colour, whose channels are bytes, and its wireframe flag; the
    white-fur material is still white and has the same wireframe flag as the
    black; every other material is exactly as construction left it. *)
Theorem fur_materials_over_histories (s : CatModel.t) :
  reachable s →
  ∃ c w,
    byteColor c
    ∧ materialStore s !! blackFurMaterial (materials s) = Some (furMaterial c w)
    ∧ materialStore s !! whiteFurMaterial (materials s)
      = Some (furMaterial (Color.mk 255 255 255) w)
    ∧ ∀ r, r ≠ blackFurMaterial (materials s) →
           r ≠ whiteFurMaterial (materials s) →
           materialStore s !! r = materialStore constructor !! r.
Proof.
  intros Hs.
  destruct (reachable_materials s Hs) as (Hm & _ & _ & _ & Hrest & c & w & Hc & Hb & Hw).
  exists c, w. rewrite Hm, constructor_materials.
  cbn [blackFurMaterial whiteFurMaterial].
  split; [exact Hc|]. split; [exact Hb|]. split; [exact Hw|].
  intros r H0 H1. apply Hrest. lia.
Qed.

Lemma fur_materials_over_histories_witness :
  let s := run (toggleWireframe true)
             (run (setFurColor 0xff8800)
                (run (animateIdle 1) (run animateSit constructor))) in
  reachable s
  ∧ is_Some (materialStore s !! whiteFurMaterial (materials s)).
Proof.
  cbv zeta. split; [exact reachable_example|].
  destruct (fur_materials_over_histories _ reachable_example)
    as (c & w & _ & _ & Hw & _).
  rewrite Hw. by eexists.
Defined.



End Histories.

(** ** How the methods compose *)

Section Composition.
Import CatModel.

Lemma parts_distinct (s : CatModel.t) (b r : ref) :
  wellFormed s = true → body s = Some b → tail s = Some r → b ≠ r.
Proof.
  intros Hwf Hb Hr. destruct (wellFormed_unpack s Hwf) as (_ & _ & _ & Hnd).
  unfold definedParts in Hnd. rewrite Hb, Hr in Hnd. intros ->.
  cbn in Hnd. apply NoDup_cons in Hnd as [Hin _]. apply Hin.
  destruct (head s); cbn; repeat constructor.
Qed.

(** X5: on a well-formed figure the idle animation commutes with each of the
    two poses: breathing and tail sway write other fields than the poses do. *)
Theorem idle_commutes_with_poses (s : CatModel.t) (time : R) :
  wellFormed s = true →
  run (animateIdle time) (run animateSit s) = run animateSit (run (animateIdle time) s)
  ∧ run (animateIdle time) (run animateStand s)
    = run animateStand (run (animateIdle time) s).
Proof.
  intros Hwf.
  assert (Hne : ∀ b r, body s = Some b → tail s = Some r → b ≠ r)
    by (intros; by eapply parts_distinct).
  rewrite !run_animateIdle_eq, !run_animateSit_eq, !run_animateStand_eq.
  destruct s as [gs ms os g mats [b|] hd [r|]]; cbn in *; unfold with_objects; cbn;
    try (split; reflexivity).
  - specialize (Hne b r eq_refl eq_refl). split; f_equal; by_lookup.
  - split; f_equal; by_lookup.
Qed.

Lemma idle_commutes_with_poses_witness :
  wellFormed constructor = true
  ∧ run (animateIdle 1) (run animateSit constructor)
    = run animateSit (run (animateIdle 1) constructor).
Proof.
  split; [exact constructor_wellFormed|].
  exact (proj1 (idle_commutes_with_poses constructor 1 constructor_wellFormed)).
Defined.

(** X6: from any state, recolouring and the wireframe switch commute with
    each other and with the three animation methods. *)
Theorem customization_commutes (s : CatModel.t) (c : Z) (enabled : bool) (time : R) :
  run (setFurColor c) (run (toggleWireframe enabled) s)
  = run (toggleWireframe enabled) (run (setFurColor c) s)
  ∧ run (setFurColor c) (run (animateIdle time) s)
    = run (animateIdle time) (run (setFurColor c) s)
  ∧ run (setFurColor c) (run animateSit s) = run animateSit (run (setFurColor c) s)
  ∧ run (setFurColor c) (run animateStand s)
    = run animateStand (run (setFurColor c) s)
  ∧ run (toggleWireframe enabled) (run (animateIdle time) s)
    = run (animateIdle time) (run (toggleWireframe enabled) s)
  ∧ run (toggleWireframe enabled) (run animateSit s)
    = run animateSit (run (toggleWireframe enabled) s)
  ∧ run (toggleWireframe enabled) (run animateStand s)
    = run animateStand (run (toggleWireframe enabled) s).
Proof.
  rewrite !run_setFurColor_eq, !run_toggleWireframe_eq, !run_animateIdle_eq,
    !run_animateSit_eq, !run_animateStand_eq.
  destruct s as [gs ms os g mats bd hd tl]; cbn; unfold with_materialStore; cbn.
  split; [|by repeat split].
  generalize (blackFurMaterial mats) (whiteFurMaterial mats). intros bf wf.
  f_equal. apply list_eq; intros k. rewrite !list_lookup_alter.
  repeat case_decide; subst; try congruence;
    destruct (ms !! _) as [[m|m]|]; reflexivity.
Qed.

(** X7: from any state, the last call wins: a second [setFurColor] or
    [toggleWireframe] leaves the state the second call alone would leave,
    and [animateStand] after [animateSit] leaves the state of [animateStand]. *)
Theorem last_call_wins (s : CatModel.t) (c1 c2 : Z) (e1 e2 : bool) :
  run (setFurColor c2) (run (setFurColor c1) s) = run (setFurColor c2) s
  ∧ run (toggleWireframe e2) (run (toggleWireframe e1) s)
    = run (toggleWireframe e2) s
  ∧ run animateStand (run animateSit s) = run animateStand s.
Proof.
  rewrite !run_setFurColor_eq, !run_toggleWireframe_eq, !run_animateSit_eq,
    !run_animateStand_eq.
  destruct s as [gs ms os g mats bd hd tl]; cbn;
    unfold with_materialStore, with_objects; cbn.
  generalize (blackFurMaterial mats) (whiteFurMaterial mats). intros bf wf.
  split; [|split].
  - f_equal. apply list_eq; intros k. rewrite !list_lookup_alter.
    repeat case_decide; subst; try congruence;
      destruct (ms !! _) as [[m|m]|]; reflexivity.
  - f_equal. apply list_eq; intros k. rewrite !list_lookup_alter.
    repeat case_decide; subst; try congruence;
      destruct (ms !! _) as [[m|m]|]; reflexivity.
  - destruct bd as [b|]; [|reflexivity]. f_equal. by_lookup.
Qed.

(** X8: switching the wireframe to any value and back to the value both fur
    materials had gives back the very state. *)
Theorem wireframe_round_trip (s : CatModel.t) (w0 w : bool) :
  wireframeAt s (blackFurMaterial (materials s)) = Some w0 →
  wireframeAt s (whiteFurMaterial (materials s)) = Some w0 →
  run (toggleWireframe w0) (run (toggleWireframe w) s) = s.
Proof.
  intros Hb Hw. rewrite !run_toggleWireframe_eq.
  destruct s as [gs ms os g mats bd hd tl]; cbn in *;
    unfold with_materialStore, wireframeAt in *; cbn in *.
  revert Hb Hw. generalize (blackFurMaterial mats) (whiteFurMaterial mats).
  intros bf wf Hb Hw.
  f_equal. apply list_eq; intros k. rewrite !list_lookup_alter.
  repeat case_decide; subst; try congruence; try reflexivity.
  all: repeat match goal with
         | H : context [?l !! ?i] |- _ => destruct (l !! i) as [[[]|]|]
         | |- context [?l !! ?i] => destruct (l !! i) as [[[]|]|]
         end; by simplify_eq/=.
Qed.

Lemma wireframe_round_trip_witness :
  wireframeAt constructor (blackFurMaterial (materials constructor)) = Some false
  ∧ wireframeAt constructor (whiteFurMaterial (materials constructor)) = Some false
  ∧ run (toggleWireframe false) (run (toggleWireframe true) constructor)
    = constructor.
Proof.
  assert (Hb : wireframeAt constructor (blackFurMaterial (materials constructor))
               = Some false) by (evaluate; reflexivity).
  assert (Hw : wireframeAt constructor (whiteFurMaterial (materials constructor))
               = Some false) by (evaluate; reflexivity).
  split; [exact Hb|]. split; [exact Hw|].
  exact (wireframe_round_trip constructor false true Hb Hw).
Defined.

(** X9: recolouring the coat and then setting the colour it had gives back
    the very state: a colour change leaves no trace but the colour. *)
Theorem furColor_round_trip (s : CatModel.t) (c0 c : Z) :
  materialColor <$> materialStore s !! blackFurMaterial (materials s)
  = Some (Color.setHex c0) →
  run (setFurColor c0) (run (setFurColor c) s) = s.
Proof.
  intros Hc. rewrite !run_setFurColor_eq.
  destruct s as [gs ms os g mats bd hd tl]; cbn in *;
    unfold with_materialStore; cbn.
  revert Hc. generalize (blackFurMaterial mats). intros bf Hc.
  f_equal. apply list_eq; intros k. rewrite !list_lookup_alter.
  repeat case_decide; subst; try congruence; try reflexivity.
  destruct (ms !! _) as [[[]|[]]|]; by simplify_eq/=.
Qed.

Lemma furColor_round_trip_witness :
  materialColor <$>
    materialStore constructor !! blackFurMaterial (materials constructor)
  = Some (Color.setHex 0x1a1a1a)
  ∧ run (setFurColor 0x1a1a1a) (run (setFurColor 0xff8800) constructor)
    = constructor.
Proof.
  assert (Hc : materialColor <$>
                 materialStore constructor !! blackFurMaterial (materials constructor)
               = Some (Color.setHex 0x1a1a1a)) by (evaluate; reflexivity).
  split; [exact Hc|].
  exact (furColor_round_trip constructor 0x1a1a1a 0xff8800 Hc).
Defined.

(** X10: standing up undoes sitting down: when the body is in the standing
    pose, [animateSit] followed by [animateStand] gives back the very state. *)
Theorem pose_round_trip (s : CatModel.t) :
  bodyPose s = Some (0.6, 0) → run animateStand (run animateSit s) = s.
Proof.
  intros Hp. rewrite run_animateStand_eq, run_animateSit_eq.
  destruct s as [gs ms os g mats [b|] hd tl]; cbn in *;
    unfold with_objects, bodyPose in *; cbn in *; [|reflexivity].
  f_equal. apply list_eq; intros k. rewrite !list_lookup_alter.
  repeat case_decide; subst; try congruence; try reflexivity.
  destruct (os !! _) as [[? ? ? [] [] ? ? ?]|]; by simplify_eq/=.
Qed.

Lemma pose_round_trip_witness :
  bodyPose constructor = Some (0.6, 0)
  ∧ run animateStand (run animateSit constructor) = constructor.
Proof.
  assert (Hp : bodyPose constructor = Some (0.6, 0)).
  { unfold bodyPose. rewrite (proj1 constructor_parts); cbn.
    by rewrite constructor_body_object. }
  split; [exact Hp | exact (pose_round_trip constructor Hp)].
Defined.

End Composition.

(** ** The whiskers *)

Section Whiskers.
Import CatModel.

(** The whisker geometry of the figure: the six left strands, then the six
    right strands, three coordinates per point. *)
Lemma constructor_whiskers :
  geometries constructor !! 15%nat =
  Some (new_Geometry
          (BufferGeometry
             (flat_map (leftWhisker 6 0.35) (seq 0 6)
              ++ flat_map (rightWhisker 6 0.35) (seq 0 6)) 3)).
Proof. evaluate. reflexivity. Qed.

Lemma whisker_angle (i : nat) :
  (i ≤ 13)%nat → 0 < 0.2 + INR i * 0.1 < PI / 2.
Proof.
  intros Hi. pose proof (pos_INR i) as H0.
  apply le_INR in Hi. replace (INR 13) with 13 in Hi by (cbn; lra).
  pose proof PI2_3_2. lra.
Qed.

(** X11: every strand of the whiskers (strand [i] of a side, for [i] up to
    13; the figure has strands 0 to 5) starts 0.1 beside the middle of the
    face and runs outward, upward and forward: its tip is further from the
    middle by more than zero and at most the whisker length, and higher and
    further forward by one and the same amount of at most 0.1; the right
    strand is the left one mirrored in the plane [x = 0]. *)
Theorem whiskers_fan_outward (whiskerCount i : nat) (whiskerLength : R) :
  0 < whiskerLength → (i ≤ 13)%nat →
  ∃ y0 dx dy,
    0 < dx <= whiskerLength ∧ 0 < dy <= 0.1
    ∧ leftWhisker whiskerCount whiskerLength i
      = [ -0.1; y0; 1.55; -0.1 - dx; y0 + dy; 1.55 + dy ]
    ∧ rightWhisker whiskerCount whiskerLength i
      = [ 0.1; y0; 1.55; 0.1 + dx; y0 + dy; 1.55 + dy ].
Proof.
  intros Hlen Hi. destruct (whisker_angle i Hi) as [Hlo Hhi].
  set (angle := 0.2 + INR i * 0.1) in *.
  exists (0.85 + (INR i - INR whiskerCount / 2) * 0.02),
         (cos angle * whiskerLength), (sin angle * 0.1).
  assert (Hcos : 0 < cos angle) by (apply cos_gt_0; lra).
  assert (Hsin : 0 < sin angle) by (apply sin_gt_0; pose proof PI_RGT_0; lra).
  pose proof (COS_bound angle) as [_ Hc1]. pose proof (SIN_bound angle) as [_ Hs1].
  split; [split; nra|]. split; [split; nra|]. by split.
Qed.

Lemma whiskers_fan_outward_witness :
  0 < 0.35 ∧ (5 ≤ 13)%nat
  ∧ ∃ y0 dx dy,
      0 < dx <= 0.35 ∧ 0 < dy <= 0.1
      ∧ leftWhisker 6 0.35 5 = [ -0.1; y0; 1.55; -0.1 - dx; y0 + dy; 1.55 + dy ]
      ∧ rightWhisker 6 0.35 5 = [ 0.1; y0; 1.55; 0.1 + dx; y0 + dy; 1.55 + dy ].
Proof.
  assert (H1 : 0 < 0.35) by lra. assert (H2 : (5 ≤ 13)%nat) by lia.
  split; [exact H1|]. split; [exact H2|].
  exact (whiskers_fan_outward 6 5 0.35 H1 H2).
Defined.

End Whiskers.

(** ** The viewer over its histories *)

Section ViewerHistories.
Import CatModel CatViewer.

Lemma viewer_model_reachable (v : CatViewer.t) :
  viewerReachable v → reachable (catModel v).
Proof.
  induction 1 as [|v value _ IH|v time _ IH|v checked _ IH|v hex _ IH].
  - apply reach_new.
  - unfold onAnimationChange, updateAnimation; cbn [currentAnimation catModel].
    destruct (String.eqb value "sit"); [|destruct (String.eqb value "stand")];
      cbn; by constructor.
  - unfold animate. destruct (String.eqb _ _); cbn; [by constructor|done].
  - cbn. by constructor.
  - cbn. by constructor.
Qed.

Lemma bodyPose_after_pose (s : CatModel.t) (py rx : R) (b : ref) :
  body s = Some b → is_Some (objects s !! b) →
  bodyPose
    (with_objects (λ os, alter (with_rotation (Euler.with_x rx)) b
                           (alter (with_position (Vector3.with_y py)) b os)) s)
  = Some (py, rx).
Proof.
  intros Hb [o Ho]. unfold bodyPose. destruct s; cbn in *. rewrite Hb; cbn.
  by rewrite !list_lookup_alter_eq, Ho.
Qed.

Lemma bodyPose_animateIdle (s : CatModel.t) (time : R) :
  wellFormed s = true → bodyPose (run (animateIdle time) s) = bodyPose s.
Proof.
  intros Hwf.
  assert (Hne : ∀ b r, body s = Some b → tail s = Some r → b ≠ r)
    by (intros; by eapply parts_distinct).
  rewrite run_animateIdle_eq. unfold bodyPose.
  destruct s as [gs ms os g mats [b|] hd [r|]]; cbn in *; try reflexivity.
  - specialize (Hne b r eq_refl eq_refl).
    rewrite !list_lookup_alter_ne, list_lookup_alter_eq by done.
    by destruct (os !! b).
  - rewrite list_lookup_alter_eq. by destruct (os !! b).
Qed.

Lemma reachable_body_live (s : CatModel.t) :
  reachable s → body s = Some 0%nat ∧ is_Some (objects s !! 0%nat).
Proof.
  intros Hs.
  destruct (reachable_objects s Hs) as (Hb & _ & _ & _ & _ & (sy & py & rx & Ho & _) & _).
  split; [exact Hb|]. rewrite Ho. by eexists.
Qed.

Lemma bodyPose_animateSit (s : CatModel.t) :
  reachable s → bodyPose (run animateSit s) = Some (0.5, 0.25).
Proof.
  intros Hs. destruct (reachable_body_live s Hs) as [Hb Ho].
  rewrite run_animateSit_eq, Hb. by apply bodyPose_after_pose.
Qed.

Lemma bodyPose_animateStand (s : CatModel.t) :
  reachable s → bodyPose (run animateStand s) = Some (0.6, 0).
Proof.
  intros Hs. destruct (reachable_body_live s Hs) as [Hb Ho].
  rewrite run_animateStand_eq, Hb. by apply bodyPose_after_pose.
Qed.

(** X12: in every state of the viewer the pose of the body agrees with the
    selected mode: sitting (0.5, 0.25) when the mode is [sit], standing
    (0.6, 0) for every other mode, whatever listeners and frames ran. *)
Theorem pose_agrees_with_mode (v : CatViewer.t) :
  viewerReachable v →
  bodyPose (catModel v) =
  Some (if String.eqb (currentAnimation v) "sit" then (0.5, 0.25) else (0.6, 0)).
Proof.
  induction 1 as [|v value Hv IH|v time Hv IH|v checked Hv IH|v hex Hv IH].
  - cbn [viewerStart currentAnimation catModel String.eqb Ascii.eqb Bool.eqb].
    unfold bodyPose. rewrite (proj1 constructor_parts); cbn.
    by rewrite constructor_body_object.
  - apply viewer_model_reachable in Hv.
    unfold onAnimationChange, updateAnimation; cbn [currentAnimation catModel].
    destruct (String.eqb value "sit") eqn:Hsit.
    + cbn [with_catModel currentAnimation catModel]. rewrite Hsit.
      by apply bodyPose_animateSit.
    + destruct (String.eqb value "stand");
        cbn [with_catModel currentAnimation catModel]; rewrite Hsit;
        by apply bodyPose_animateStand.
  - unfold animate. destruct (String.eqb (currentAnimation v) "idle"); [|exact IH].
    cbn [with_catModel currentAnimation catModel].
    rewrite bodyPose_animateIdle; [exact IH|].
    by apply reachable_wellFormed, viewer_model_reachable.
  - cbn [onWireframeChange with_catModel currentAnimation catModel].
    unfold bodyPose in *.
    by destruct (objects_toggleWireframe (catModel v) checked) as (-> & -> & _).
  - cbn [onFurColorInput with_catModel currentAnimation catModel].
    unfold bodyPose in *.
    by destruct (objects_setFurColor (catModel v) hex) as (-> & -> & _).
Qed.

Lemma viewer_example :
  viewerReachable
    (onAnimationChange "sit" (onFurColorInput 0xff8800 (animate 1 viewerStart))).
Proof. apply vr_animation, vr_furColor, vr_frame, vr_start. Qed.

Lemma pose_agrees_with_mode_witness :
  let v := onAnimationChange "sit"
             (onFurColorInput 0xff8800 (animate 1 viewerStart)) in
  viewerReachable v ∧ is_Some (bodyPose (catModel v)).
Proof.
  cbv zeta. split; [exact viewer_example|].
  rewrite (pose_agrees_with_mode _ viewer_example). by eexists.
Defined.

(** X13: the poses never reset the idle animation.  When the viewer is in
    idle mode, a frame at time [t] followed by the selection of any mode
    leaves the body's vertical scale and the tail's rotation at the values
    the frame computed from [t]; and if the selected mode is not [idle], no
    later frame changes the state. *)
Theorem leaving_idle_freezes_breathing (v : CatViewer.t) (mode : string) (t : R) :
  viewerReachable v → currentAnimation v = "idle"%string →
  let v' := onAnimationChange mode (animate t v) in
  bodyScaleY (catModel v') = Some (0.8 + sin (t * 2) * 0.01)
  ∧ tailRotation (catModel v')
    = Some (Euler.mk (sin (t * 1.5) * 0.08) (cos (t * 1) * 0.05) 0)
  ∧ (mode ≠ "idle"%string → ∀ t', animate t' v' = v').
Proof.
  intros Hv Hidle. cbv zeta.
  pose proof (viewer_model_reachable v Hv) as Hm.
  set (m1 := run (animateIdle t) (catModel v)).
  assert (Hframe : animate t v = {| currentAnimation := "idle"; catModel := m1 |}).
  { unfold animate. rewrite Hidle. cbn. unfold with_catModel. by rewrite Hidle. }
  rewrite Hframe.
  assert (Hm1 : reachable m1) by (by constructor).
  destruct (reachable_objects _ Hm) as (Hb & _ & Ht & _ & _ & (sy & py & rx & Ho & _)
                                        & (tx & ty & Hto & _)).
  assert (Hs1 : bodyScaleY m1 = Some (0.8 + sin (t * 2) * 0.01)).
  { apply bodyScaleY_animateIdle. unfold bodyScaleY. rewrite Hb; cbn.
    rewrite Ho. by eexists. }
  assert (Ht1 : tailRotation m1
                = Some (Euler.mk (sin (t * 1.5) * 0.08) (cos (t * 1) * 0.05) 0)).
  { apply (tailRotation_animateIdle _ _ (Euler.mk tx ty 0)).
    unfold tailRotation. rewrite Ht; cbn. by rewrite Hto. }
  destruct (reachable_objects _ Hm1) as (Hb1 & _).
  destruct (wellFormed_unpack _ (reachable_wellFormed _ Hm1)) as (_ & _ & _ & Hnd).
  assert (Hkeep : ∀ py' rx',
    bodyScaleY (with_objects
      (λ os, alter (with_rotation (Euler.with_x rx')) 0%nat
               (alter (with_position (Vector3.with_y py')) 0%nat os)) m1)
    = bodyScaleY m1
    ∧ tailRotation (with_objects
      (λ os, alter (with_rotation (Euler.with_x rx')) 0%nat
               (alter (with_position (Vector3.with_y py')) 0%nat os)) m1)
    = tailRotation m1).
  { intros py' rx'. split; [by apply bodyScaleY_pose | by apply tailRotation_pose]. }
  unfold onAnimationChange, updateAnimation; cbn [currentAnimation catModel].
  assert (Hmodel : ∃ py' rx',
    catModel (if String.eqb mode "sit"
              then with_catModel (run animateSit)
                     {| currentAnimation := mode; catModel := m1 |}
              else if String.eqb mode "stand"
              then with_catModel (run animateStand)
                     {| currentAnimation := mode; catModel := m1 |}
              else with_catModel (run animateStand)
                     {| currentAnimation := mode; catModel := m1 |})
    = with_objects
        (λ os, alter (with_rotation (Euler.with_x rx')) 0%nat
                 (alter (with_position (Vector3.with_y py')) 0%nat os)) m1).
  { destruct (String.eqb mode "sit"); [|destruct (String.eqb mode "stand")];
      cbn [with_catModel catModel];
      rewrite ?run_animateSit_eq, ?run_animateStand_eq, Hb1; by eexists _, _. }
  destruct Hmodel as (py' & rx' & ->).
  destruct (Hkeep py' rx') as [-> ->].
  split; [exact Hs1|]. split; [exact Ht1|].
  intros Hmode t'. unfold animate.
  assert (Hcur : currentAnimation
    (if String.eqb mode "sit"
     then with_catModel (run animateSit) {| currentAnimation := mode; catModel := m1 |}
     else if String.eqb mode "stand"
     then with_catModel (run animateStand) {| currentAnimation := mode; catModel := m1 |}
     else with_catModel (run animateStand) {| currentAnimation := mode; catModel := m1 |})
    = mode).
  { by destruct (String.eqb mode "sit"); [|destruct (String.eqb mode "stand")]. }
  rewrite Hcur. by rewrite (proj2 (String.eqb_neq _ _) Hmode).
Qed.

Lemma leaving_idle_freezes_breathing_witness :
  viewerReachable viewerStart
  ∧ currentAnimation viewerStart = "idle"%string
  ∧ bodyScaleY (catModel (onAnimationChange "sit" (animate 1 viewerStart)))
    = Some (0.8 + sin (1 * 2) * 0.01).
Proof.
  split; [exact vr_start|]. split; [reflexivity|].
  exact (proj1 (leaving_idle_freezes_breathing viewerStart "sit" 1 vr_start eq_refl)).
Defined.

End ViewerHistories.
